(** * udd: the update engine of [mod.ts]

    A shallow embedding of the class [Udd] of [mod.ts] (methods [content],
    [run], [update], [maybeReplace], [replace]) and of the JavaScript string
    primitives it calls.  The collaborators imported from the sibling modules
    ([semver.ts], [registry.ts], [search.ts], [deps.ts], [progress.ts]) are
    parameters of the development; one concrete instance of them, written
    after the prose specification, is used to run the engine on examples.

    The file that [Udd] edits is its decoded text; reading and writing it
    always succeed.  The validation callback [test] and the fetch [all()]
    are functions that do not write the file. *)

From Stdlib Require Import String Ascii List Bool Arith Lia.
Import ListNotations.
Local Open Scope list_scope.
Local Open Scope string_scope.

Set Implicit Arguments.

(** ** JavaScript strings

    A JavaScript string is modelled by [string]; one [ascii] stands for one
    code unit.  [undefined] is [None] in [option string]. *)

Module Js.

(** [s.startsWith(p)] *)
Fixpoint startsWith (p s : string) : bool :=
  match p, s with
  | EmptyString, _ => true
  | String a p', String b s' => Ascii.eqb a b && startsWith p' s'
  | String _ _, EmptyString => false
  end.

(** [s.includes(p)] *)
Fixpoint includes (s p : string) : bool :=
  startsWith p s ||
  match s with
  | EmptyString => false
  | String _ s' => includes s' p
  end.

(** One character as a string. *)
Definition chr (c : ascii) : string := String c EmptyString.

(** The scan of [s.split(sep)] for a non-empty [sep]: [skip] counts the
    code units of a separator just matched that are still to be passed over,
    [cur] is the piece read so far. *)
Fixpoint split_scan (sep : string) (skip : nat) (cur s : string) : list string :=
  match s with
  | EmptyString => [cur]
  | String c s' =>
      match skip with
      | S k => split_scan sep k cur s'
      | O =>
          if startsWith sep s
          then cur :: split_scan sep (String.length sep - 1) EmptyString s'
          else split_scan sep 0 (cur ++ chr c) s'
      end
  end.

(** [s.split("")] gives the code units of [s], and none for the empty
    string. *)
Fixpoint units (s : string) : list string :=
  match s with
  | EmptyString => []
  | String c s' => chr c :: units s'
  end.

(** [s.split(sep)] *)
Definition split (s sep : string) : list string :=
  match sep with
  | EmptyString => units s
  | String _ _ => split_scan sep 0 EmptyString s
  end.

(** [l.join(sep)] *)
Fixpoint join (l : list string) (sep : string) : string :=
  match l with
  | [] => EmptyString
  | [x] => x
  | x :: l' => x ++ sep ++ join l' sep
  end.

(** [s.slice(1)] *)
Definition slice1 (s : string) : string :=
  match s with
  | EmptyString => EmptyString
  | String _ s' => s'
  end.

(** Template-literal conversion of a value that is a string or
    [undefined]. *)
Definition toStr (v : option string) : string :=
  match v with
  | Some s => s
  | None => "undefined"
  end.

(** What can be thrown.  [SyntaxError] and [TypeError] are the built-in
    classes, [OtherError] any other thrown value, with its message. *)
Inductive Error : Type :=
  | SyntaxError (message : string)
  | TypeError (message : string)
  | OtherError (message : string).

(** [e instanceof SyntaxError] *)
Definition instanceofSyntaxError (e : Error) : bool :=
  match e with
  | SyntaxError _ => true
  | _ => false
  end.

(** [e.message] *)
Definition message (e : Error) : string :=
  match e with
  | SyntaxError m | TypeError m | OtherError m => m
  end.

End Js.

(** ** The world: one file and a trace of what was done *)

(** What a call [this.test()] does: it returns a promise that resolves or
    one that rejects, or it throws before it returns a promise (a callback
    that is no [async] function can). *)
Inductive TestOutcome : Type :=
  | Resolves
  | Rejects
  | Throws (e : Js.Error).

Inductive Event : Type :=
  | EvLog (line : string)          (* progress.log(line) *)
  | EvRead                         (* Deno.readFile(filename) *)
  | EvWrite (newContent : string)  (* Deno.writeFile(filename, ...) *)
  | EvFetch (url : string)         (* url.all() *)
  | EvTest (outcome : TestOutcome). (* this.test() *)

(** [file] is the text of the file named [filename]; [trace] lists the
    events so far, the latest first. *)
Record World : Type := mkWorld {
  file : string;
  trace : list Event
}.

Definition emit (e : Event) (w : World) : World :=
  mkWorld (file w) (e :: trace w).

(** An asynchronous computation, awaited: it either resolves to a value or
    rejects with an error, and leaves a world either way. *)
Inductive Result (A : Type) : Type :=
  | Ok (a : A) (w : World)
  | Throw (e : Js.Error) (w : World).

Arguments Throw {A} e w.

Definition M (A : Type) : Type := World -> Result A.

Definition ret {A} (a : A) : M A := fun w => Ok a w.
Definition throw {A} (e : Js.Error) : M A := fun w => Throw e w.
Definition bind {A B} (m : M A) (k : A -> M B) : M B :=
  fun w =>
    match m w with
    | Ok a w' => k a w'
    | Throw e w' => Throw e w'
    end.

Notation "x <- m ;; k" := (bind m (fun x => k))
  (at level 61, m at next level, right associativity).
Notation "m ;;; k" := (bind m (fun _ => k))
  (at level 61, right associativity).

(** The world a computation leaves. *)
Definition worldOf {A} (r : Result A) : World :=
  match r with
  | Ok _ w => w
  | Throw _ w => w
  end.

(** The value a computation resolves to, if it does. *)
Definition valueOf {A} (r : Result A) : option A :=
  match r with
  | Ok a _ => Some a
  | Throw _ _ => None
  end.

Definition log (line : string) : M unit := fun w => Ok tt (emit (EvLog line) w).

(** ** Registry URLs ([registry.ts], by its interface)

    A [RegistryUrl] is an object with a mutable field [url] and the methods
    [version()], [at(version)] and [all()] of its registry.  The methods
    read [this.url], so they are functions of the URL text.  TypeScript's
    types are erased: [at] can receive [undefined]. *)

Inductive Fetched : Type :=
  | Listed (versions : list string)
  | FetchFailed (e : Js.Error).

Record Registry : Type := mkRegistry {
  reg_version : string -> string;
  reg_at : string -> option string -> string;
  reg_all : string -> Fetched
}.

Record RegistryUrl : Type := mkRegistryUrl {
  url : string;
  registry : Registry
}.

Definition version (u : RegistryUrl) : string := reg_version (registry u) (url u).

(** [u.at(v).url] *)
Definition at_url (u : RegistryUrl) (v : option string) : string :=
  reg_at (registry u) (url u) v.

(** [await u.all()] *)
Definition all (u : RegistryUrl) : M (list string) :=
  fun w =>
    match reg_all (registry u) (url u) with
    | Listed vs => Ok vs (emit (EvFetch (url u)) w)
    | FetchFailed e => Throw e (emit (EvFetch (url u)) w)
    end.

(** [u.url = newUrl] *)
Definition set_url (u : RegistryUrl) (newUrl : string) : RegistryUrl :=
  mkRegistryUrl newUrl (registry u).

(** ** Options and results *)

(** [test] is the validation callback.  It may look at the file and at what
    happened so far; it does not write the file. *)
Record UddOptions : Type := mkOptions {
  dryRun : bool;
  quiet : bool;
  test : World -> TestOutcome
}.

Record UddResult : Type := mkResult {
  initUrl : string;
  initVersion : string;
  message : option string;
  success : option bool
}.

(** ** Constraints ([semver.ts], by its interface)

    [fragment(url, version)] returns a predicate over versions or
    [undefined], or throws. *)
Inductive Fragment (Semver : Type) : Type :=
  | Returns (filter : option (Semver -> bool))
  | Raises (e : Js.Error).

Arguments Raises {Semver} e.

(** ** One instance of the collaborators

    The sibling modules are not part of [mod.ts]; this instance follows the
    prose specification and serves to run the engine of the next section on
    concrete inputs. *)

Module Model.

(** The text before the first [c] and, when there is one, the text after
    it. *)
Fixpoint cut (c : ascii) (s : string) : string * option string :=
  match s with
  | EmptyString => (EmptyString, None)
  | String a s' =>
      if Ascii.eqb a c then (EmptyString, Some s')
      else let (l, r) := cut c s' in (String a l, r)
  end.

Definition isDigit (c : ascii) : bool :=
  Nat.leb 48 (nat_of_ascii c) && Nat.leb (nat_of_ascii c) 57.

Fixpoint digits (s : string) (acc : nat) : option nat :=
  match s with
  | EmptyString => Some acc
  | String c s' =>
      if isDigit c then digits s' (10 * acc + (nat_of_ascii c - 48)) else None
  end.

(** A numeric identifier: digits, without a leading zero. *)
Definition numeric (s : string) : option nat :=
  match s with
  | EmptyString => None
  | String "0" (String _ _) => None
  | _ => digits s 0
  end.

Definition isIdChar (c : ascii) : bool :=
  let n := nat_of_ascii c in
  isDigit c || (Nat.leb 65 n && Nat.leb n 90) || (Nat.leb 97 n && Nat.leb n 122)
  || Ascii.eqb c "-".

Fixpoint allChars (p : ascii -> bool) (s : string) : bool :=
  match s with
  | EmptyString => true
  | String c s' => p c && allChars p s'
  end.

(** A prerelease identifier: non-empty, of letters, digits and hyphens, and
    without a leading zero when it is numeric. *)
Definition isIdentifier (s : string) : bool :=
  match s with
  | EmptyString => false
  | String "0" (String _ _) =>
      allChars isIdChar s && negb (allChars isDigit s)
  | _ => allChars isIdChar s
  end.

(** Modelled from the spec: the Semver record of [semver.ts] (section 3):
    major, minor and patch numbers, the prerelease identifiers (none for a
    release) and the build metadata, with the text it was parsed from. *)
Record Semver : Type := mkSemver {
  sv_version : string;
  major : nat;
  minor : nat;
  patch : nat;
  prerelease : list string;
  build : option string
}.

(** Modelled from the spec: [new Semver(text)] of [semver.ts] (section 4.2),
    which fails for a string outside the grammar
    MAJOR.MINOR.PATCH[-PRERELEASE][+BUILD]. *)
Definition Semver_new (text : string) : option Semver :=
  let (rest, bld) := cut "+" text in
  let (core, pre) := cut "-" rest in
  let buildOk :=
    match bld with
    | None => true
    | Some b =>
        forallb (fun i => allChars isIdChar i && negb (String.eqb i ""))
          (Js.split b ".")
    end in
  let pres :=
    match pre with
    | None => Some []
    | Some p =>
        if forallb isIdentifier (Js.split p ".") then Some (Js.split p ".")
        else None
    end in
  match map numeric (Js.split core "."), pres with
  | [Some ma; Some mi; Some pa], Some ids =>
      if buildOk then Some (mkSemver text ma mi pa ids bld) else None
  | _, _ => None
  end.

(** Modelled from the spec: the function [semver] of [semver.ts], the parse
    that gives [undefined] where the constructor fails. *)
Definition semver (text : string) : option Semver := Semver_new text.

(** Modelled from the spec: the order of two prerelease identifiers
    (section 3): numbers by value, a number before a word, words by their
    characters. *)
Definition cmpId (a b : string) : comparison :=
  match numeric a, numeric b with
  | Some x, Some y => Nat.compare x y
  | Some _, None => Lt
  | None, Some _ => Gt
  | None, None => String.compare a b
  end.

(** Modelled from the spec: prerelease identifiers compared pairwise; the
    shorter list comes first when one is the start of the other. *)
Fixpoint cmpIds (a b : list string) : comparison :=
  match a, b with
  | [], [] => Eq
  | [], _ :: _ => Lt
  | _ :: _, [] => Gt
  | x :: a', y :: b' =>
      match cmpId x y with
      | Eq => cmpIds a' b'
      | c => c
      end
  end.

(** Modelled from the spec: a release comes after its prereleases. *)
Definition cmpPre (a b : list string) : comparison :=
  match a, b with
  | [], [] => Eq
  | [], _ :: _ => Gt
  | _ :: _, [] => Lt
  | _, _ => cmpIds a b
  end.

Definition thenCmp (c d : comparison) : comparison :=
  match c with
  | Eq => d
  | _ => c
  end.

(** Modelled from the spec: semver precedence (section 3). *)
Definition cmp (a b : Semver) : comparison :=
  thenCmp (Nat.compare (major a) (major b))
    (thenCmp (Nat.compare (minor a) (minor b))
       (thenCmp (Nat.compare (patch a) (patch b))
          (cmpPre (prerelease a) (prerelease b)))).

Definition isLt (c : comparison) : bool :=
  match c with
  | Lt => true
  | _ => false
  end.

Definition isEq (c : comparison) : bool :=
  match c with
  | Eq => true
  | _ => false
  end.

(** Modelled from the spec: the constraint [=] of [semver.ts] (section 4.3),
    for the given version [v], as a predicate of the other version [o]:
    exact match. *)
Definition eq (v o : Semver) : bool := isEq (cmp o v).

(** Modelled from the spec: the constraint [<]: strictly less than [v]. *)
Definition lt (v o : Semver) : bool := isLt (cmp o v).

(** Modelled from the spec: the constraint [~]: same major and minor, and a
    patch that is at least the one of [v]. *)
Definition tilde (v o : Semver) : bool :=
  Nat.eqb (major o) (major v) && Nat.eqb (minor o) (minor v)
  && Nat.leb (patch v) (patch o).

(** Modelled from the spec: the constraint [^]: not below [v], and the
    same major when it is positive, else the same minor when it is
    positive, else the same patch. *)
Definition caret (v o : Semver) : bool :=
  negb (isLt (cmp o v)) &&
  (if Nat.ltb 0 (major v) then Nat.eqb (major o) (major v)
   else if Nat.ltb 0 (minor v)
   then Nat.eqb (major o) 0 && Nat.eqb (minor o) (minor v)
   else Nat.eqb (major o) 0 && Nat.eqb (minor o) 0
        && Nat.eqb (patch o) (patch v)).

(** Modelled from the spec: [fragment(url, version)] of [semver.ts]
    (section 4.3).  Without a fragment there is no constraint.  A fragment
    is a modifier followed by a version, the version of the URL when none is
    written; anything else is a SyntaxError. *)
Definition fragment (url version : string) : Fragment Semver :=
  match snd (cut "#" url) with
  | None => Returns None
  | Some f =>
      match f with
      | EmptyString => Raises (Js.SyntaxError "invalid fragment: ")
      | String c rest =>
          let text := if String.eqb rest "" then version else rest in
          let mk (p : Semver -> Semver -> bool) :=
            match Semver_new text with
            | Some v => Returns (Some (p v))
            | None => Raises (Js.SyntaxError ("invalid semver version: " ++ text))
            end in
          if Ascii.eqb c "=" then mk eq
          else if Ascii.eqb c "<" then mk lt
          else if Ascii.eqb c "~" then mk tilde
          else if Ascii.eqb c "^" then mk caret
          else Raises (Js.SyntaxError ("invalid fragment: " ++ f))
      end
  end.

(** Modelled from the spec: [getPrereleaseVersion] of [deps.ts]
    ([isPrerelease] of section 4.2): the prerelease component of a version
    string, [null] when it has none or is no version. *)
Definition getPrereleaseVersion (v : string) : option (list string) :=
  match Semver_new v with
  | Some x =>
      match prerelease x with
      | [] => None
      | ids => Some ids
      end
  | None => None
  end.

(** [colors.yellow] as the standard module [fmt/colors] of the runtime
    defines it: the text between the codes 33 and 39 when colours are
    enabled, with every inner code 39 replaced, and the text itself when
    they are not. *)
Definition esc : string := Js.chr (ascii_of_nat 27).

Definition yellow (enabled : bool) (s : string) : string :=
  if enabled
  then (esc ++ "[33m") ++ Js.join (Js.split s (esc ++ "[39m")) (esc ++ "[33m")
       ++ (esc ++ "[39m")
  else s.

(** Modelled from the spec: a registry of [registry.ts] (section 4.1) whose
    URLs carry the version between the first [@] and the next [/].
    [version()] is that token, [at(v)] puts [v] in its place and keeps the
    rest of the URL, [all()] gives what the provider, [listing], answers
    for the URL. *)
Definition reg_version (url : string) : string :=
  match snd (cut "@" url) with
  | Some rest => fst (cut "/" rest)
  | None => EmptyString
  end.

(** Modelled from the spec: [at(v)] of that registry; an [undefined]
    version is written as template text writes it. *)
Definition reg_at (url : string) (v : option string) : string :=
  match cut "@" url with
  | (before, Some rest) =>
      before ++ "@" ++ Js.toStr v ++
      match snd (cut "/" rest) with
      | Some path => "/" ++ path
      | None => ""
      end
  | (_, None) => url
  end.

(** Modelled from the spec: the registry with [listing] for its [all()]. *)
Definition registryOf (listing : string -> Fetched) : Registry :=
  mkRegistry reg_version reg_at listing.

(** Modelled from the spec: [lookup] of [registry.ts]: the first registry
    that matches the URL, here the one registry, for a URL with an [@]. *)
Definition lookup (listing : string -> Fetched) (u : string)
    : option RegistryUrl :=
  if Js.includes u "@" then Some (mkRegistryUrl u (registryOf listing)) else None.

(** Modelled from the spec: [importUrls] of [search.ts], the scan for
    import targets: the single-quoted texts that start with [https://]. *)
Definition importUrls (content : string) : list string :=
  filter (Js.startsWith "https://") (Js.split content "'").

End Model.

(** ** Inputs of the examples *)

Module Inputs.

Definition foo (v : string) : string :=
  "https://deno.land/x/foo@" ++ v ++ "/mod.ts".

Definition bar (v : string) : string :=
  "https://deno.land/x/bar@" ++ v ++ "/mod.ts".

(** A file that imports the given URLs, in a fresh world. *)
Definition importing (urls : list string) : World :=
  mkWorld (String.concat " " (map (fun u => "import '" ++ u ++ "';") urls)) [].

(** A provider that lists [vs] for every URL. *)
Definition lists (vs : list string) : string -> Fetched :=
  fun _ => Listed vs.

(** A provider that lists [vs] for the URLs of [foo] and fails for the
    others. *)
Definition listsFooOnly (vs : list string) : string -> Fetched :=
  fun u =>
    if Js.includes u "/foo@" then Listed vs
    else FetchFailed (Js.OtherError "network error").

(** The URL [u] as the registry object that [lookup] makes of it. *)
Definition ref (listing : string -> Fetched) (u : string) : RegistryUrl :=
  mkRegistryUrl u (Model.registryOf listing).

(** Options: a validation that resolves, one that rejects, and a dry run. *)
Definition accepting : UddOptions := mkOptions false false (fun _ => Resolves).
Definition rejecting : UddOptions := mkOptions false false (fun _ => Rejects).
Definition dry : UddOptions := mkOptions true false (fun _ => Resolves).

(** Options with a validation that rejects once the log has the line
    [earlier run], and resolves before. *)
Definition moody : UddOptions :=
  mkOptions false false
    (fun w =>
       if existsb
            (fun e =>
               match e with
               | EvLog line => String.eqb line "earlier run"
               | _ => false
               end)
            (trace w)
       then Rejects else Resolves).

(** Options with a validation that throws before it returns a promise. *)
Definition throwing : UddOptions :=
  mkOptions false false (fun _ => Throws (Js.OtherError "validation threw")).

End Inputs.

(** ** The class [Udd] *)

Section Engine.

(** What [mod.ts] imports.  [Semver_new s] is [new Semver(s)], with [None]
    when the constructor throws; [semver] is the function of that name;
    [sv_version x] is the field [x.version]. *)
Variable Semver : Type.
Variable Semver_new : string -> option Semver.
Variable semver : string -> option Semver.
Variable sv_version : Semver -> string.

Variable fragment : string -> string -> Fragment Semver.

(** [getPrereleaseVersion(v)], with [None] for [null] and [undefined]. *)
Variable Prerelease : Type.
Variable getPrereleaseVersion : string -> option Prerelease.

(** [colors.yellow] *)
Variable yellow : string -> string.

(** [importUrls(content, registries)] and [lookup(u, registries)], at the
    registries of this instance. *)
Variable importUrls : string -> list string.
Variable lookup : string -> option RegistryUrl.

Variable this : UddOptions.

(** [content()] *)
Definition content : M string :=
  fun w => Ok (file w) (emit EvRead w).

(** [Deno.writeFile(this.filename, encoder.encode(newContent))] *)
Definition writeFile (newContent : string) : M unit :=
  fun w => Ok tt (mkWorld newContent (EvWrite newContent :: trace w)).

(** [replace(left, right)] *)
Definition replace (left right : string) : M unit :=
  c <- content ;;
  let newContent := Js.join (Js.split c left) right in
  writeFile newContent.

(** [await this.test().then((_) => false).catch((_) => true)]: the
    handlers are attached to the promise that [this.test()] returns; what
    the call itself throws leaves the expression. *)
Definition runTest : M bool :=
  fun w =>
    match test this w with
    | Resolves => Ok false (emit (EvTest Resolves) w)
    | Rejects => Ok true (emit (EvTest Rejects) w)
    | Throws e => Throw e (emit (EvTest (Throws e)) w)
    end.

(** [maybeReplace(url, newVersion, initUrl)] *)
Definition maybeReplace (u : RegistryUrl) (newVersion : option string)
    (initUrl : string) : M bool :=
  let newUrl := at_url u newVersion in
  replace initUrl newUrl ;;;
  failed <- runTest ;;
  (if failed then replace newUrl initUrl else ret tt) ;;;
  ret failed.

(** [c.match(/^[\~\^\=\<]/)] on a one-character string *)
Definition isModifier (c : ascii) : bool :=
  Ascii.eqb c "~" || Ascii.eqb c "^" || Ascii.eqb c "=" || Ascii.eqb c "<".

(** Lines 86-91: the modifier of the version moves to the fragment.  The
    result is the URL object after the step and [newFragmentToken]. *)
Definition relocate (u : RegistryUrl) (initVersion : string)
    : M (RegistryUrl * option string) :=
  match initVersion with
  | EmptyString =>
      (* initVersion[0] is undefined *)
      throw (Js.TypeError "Cannot read properties of undefined (reading 'match')")
  | String c rest =>
      if isModifier c && negb (Js.includes (url u) "#")
      then
        let newFragmentToken := Js.chr c in
        ret (set_url u (at_url u (Some (Js.slice1 initVersion))
                        ++ "#" ++ newFragmentToken),
             Some newFragmentToken)
      else ret (u, None)
  end.

Definition isNull {A} (o : option A) : bool :=
  match o with
  | None => true
  | Some _ => false
  end.

(** Lines 101-106: the versions a target is chosen from. *)
Definition candidates (initVersion : string) (versions : list string)
    : list string :=
  let isInitVersionPrerelease := negb (isNull (getPrereleaseVersion initVersion)) in
  if negb isInitVersionPrerelease
  then filter (fun version => isNull (getPrereleaseVersion version)) versions
  else versions.

(** [.filter((x) => x !== undefined).map((x) => x!)] *)
Fixpoint defined {A} (l : list (option A)) : list A :=
  match l with
  | [] => []
  | Some x :: l' => x :: defined l'
  | None :: l' => defined l'
  end.

(** Lines 129-131.  [semver] and the predicate read their first argument
    only. *)
Definition compatible (f : Semver -> bool) (versions : list string)
    : list string :=
  map sv_version (filter f (defined (map semver versions))).

(** Lines 143-146 *)
Definition reattach (newFragmentToken : option string)
    (newVersion : option string) : option string :=
  match newFragmentToken with
  | Some t => Some (t ++ Js.toStr newVersion)
  | None => newVersion
  end.

(** [v === newVersion] for a string [v] *)
Definition strictEq (v : string) (newVersion : option string) : bool :=
  match newVersion with
  | Some n => String.eqb v n
  | None => false
  end.

(** Lines 153-168: the write, unless [dryRun], and the outcome. *)
Definition finish (u : RegistryUrl) (iUrl iVersion : string)
    (newFragmentToken newVersion : option string) : M UddResult :=
  failed <-
    (if negb (dryRun this)
     then
       log ("Attempting update: " ++ url u ++ " -> " ++ Js.toStr newVersion) ;;;
       failed <- maybeReplace u newVersion iUrl ;;
       let msg := if failed then "failed" else "successful" in
       log ("Update " ++ msg ++ ": " ++ url u ++ " -> " ++ Js.toStr newVersion) ;;;
       ret failed
     else ret false) ;;
  let maybeFragment :=
    match newFragmentToken with
    | None => ""
    | Some t => "#" ++ t
    end in
  ret (mkResult iUrl iVersion
         (Some (Js.toStr newVersion ++ yellow maybeFragment))
         (Some (negb failed))).

(** Lines 108 and 128-141: the target, or none when a constraint leaves no
    version. *)
Inductive Choice : Type :=
  | NoCompatible
  | Target (newVersion : option string).

Definition choose (filter : option (Semver -> bool)) (versions : list string)
    : Choice :=
  let newVersion := hd_error versions in
  match filter with
  | Some f =>
      match compatible f versions with
      | [] => NoCompatible
      | c0 :: _ => Target (Some c0)
      end
  | None => Target newVersion
  end.

(** Lines 93-169 of [update], after the fetch and the relocation. *)
Definition resolve (u : RegistryUrl) (iUrl iVersion : string)
    (newFragmentToken : option string) (versions : list string) : M UddResult :=
  match Semver_new (version u) with
  | None =>
      log ("Skip updating: " ++ url u) ;;;
      ret (mkResult iUrl iVersion None None)
  | Some _ =>
      let versions := candidates iVersion versions in
      match fragment (url u) (version u) with
      | Raises e =>
          if Js.instanceofSyntaxError e
          then ret (mkResult iUrl iVersion (Some (Js.message e)) (Some false))
          else throw e
      | Returns filter =>
          match choose filter versions with
          | NoCompatible =>
              ret (mkResult iUrl iVersion
                     (Some "no compatible version found") (Some false))
          | Target newVersion =>
              let newVersion := reattach newFragmentToken newVersion in
              if strictEq (version u) newVersion && isNull newFragmentToken
              then
                log ("Using latest: " ++ url u) ;;;
                ret (mkResult iUrl iVersion None None)
              else finish u iUrl iVersion newFragmentToken newVersion
          end
      end
  end.

(** [update(url)] *)
Definition update (u : RegistryUrl) : M UddResult :=
  let iUrl := url u in
  let iVersion := version u in
  log ("Looking for releases: " ++ url u) ;;;
  versions <- all u ;;
  r <- relocate u iVersion ;;
  resolve (fst r) iUrl iVersion (snd r) versions.

(** The loop of [run] over the URLs found. *)
Fixpoint runLoop (urls : list string) : M (list UddResult) :=
  match urls with
  | [] => ret []
  | u :: rest =>
      match lookup u with
      | Some v =>
          r <- update v ;;
          rs <- runLoop rest ;;
          ret (r :: rs)
      | None => runLoop rest
      end
  end.

(** [run()] *)
Definition run : M (list UddResult) :=
  c <- content ;;
  runLoop (importUrls c).

(** [udd(filename, options)]: a new [Udd], and [run()] on it. *)
Definition udd : M (list UddResult) := run.

(** ** Properties of the engine *)

Unset Implicit Arguments.

(** The world once [update] has logged its first line and fetched the
    versions. *)
Definition afterFetch (u : RegistryUrl) (w : World) : World :=
  emit (EvFetch (url u)) (emit (EvLog ("Looking for releases: " ++ url u)) w).

(** An event that neither writes the file nor calls the validation. *)
Definition quietEvent (e : Event) : Prop :=
  match e with
  | EvWrite _ | EvTest _ => False
  | _ => True
  end.

(** [readOnly w w']: from [w] to [w'] the file is the same and nothing was
    written or validated. *)
Definition readOnly (w w' : World) : Prop :=
  file w' = file w /\
  exists evs, trace w' = (evs ++ trace w)%list /\ Forall quietEvent evs.

(** A computation that only reads, whatever the world. *)
Definition preserves {A} (m : M A) : Prop :=
  forall w, readOnly w (worldOf (m w)).


Create HintDb frame.

(** When the fetch lists versions and the relocation step passes, [update]
    is [resolve] in the world after the fetch. *)
Lemma update_fetched u w versions u' tok :
  reg_all (registry u) (url u) = Listed versions ->
  relocate u (version u) = ret (u', tok) ->
  update u w = resolve u' (url u) (version u) tok versions (afterFetch u w).
Proof.
  intros Hall Hrel. unfold update, bind, all, log.
  rewrite Hall, Hrel. reflexivity.
Qed.

(** When the fetch fails, its error leaves [update]. *)
Lemma update_fetch_failed u w e :
  reg_all (registry u) (url u) = FetchFailed e ->
  update u w = Throw e (afterFetch u w).
Proof.
  intros Hall. unfold update, bind, all, log. rewrite Hall. reflexivity.
Qed.

(** One turn of the loop of [run], for a URL that a registry matches. *)
Lemma runLoop_cons s rest u w :
  lookup s = Some u ->
  runLoop (s :: rest) w =
  match update u w with
  | Ok r w1 =>
      match runLoop rest w1 with
      | Ok rs w2 => Ok (r :: rs) w2
      | Throw e w2 => Throw e w2
      end
  | Throw e w1 => Throw e w1
  end.
Proof.
  intros Hl. simpl. rewrite Hl. unfold bind.
  destruct (update u w) as [r w1|e w1]; [|reflexivity].
  destruct (runLoop rest w1); reflexivity.
Qed.

(** *** Worlds that differ by reads and log lines only *)

Lemma readOnly_refl w : readOnly w w.
Proof. split; [reflexivity|]. exists []. split; [reflexivity|constructor]. Qed.

Lemma readOnly_trans w1 w2 w3 :
  readOnly w1 w2 -> readOnly w2 w3 -> readOnly w1 w3.
Proof.
  intros [Hf1 [e1 [Ht1 Hq1]]] [Hf2 [e2 [Ht2 Hq2]]]. split.
  - congruence.
  - exists (e2 ++ e1)%list. split.
    + rewrite Ht2, Ht1. apply app_assoc.
    + apply Forall_app. split; assumption.
Qed.

Lemma readOnly_emit e w : quietEvent e -> readOnly w (emit e w).
Proof.
  intros Hq. split; [reflexivity|]. exists [e]. split; [reflexivity|].
  constructor; [assumption|constructor].
Qed.

Lemma readOnly_afterFetch u w : readOnly w (afterFetch u w).
Proof.
  unfold afterFetch.
  eapply readOnly_trans; apply readOnly_emit; exact I.
Qed.

Lemma preserves_ret {A} (a : A) : preserves (ret a).
Proof. intros w. apply readOnly_refl. Qed.

Lemma preserves_throw {A} e : preserves (@throw A e).
Proof. intros w. apply readOnly_refl. Qed.

Lemma preserves_bind {A B} (m : M A) (k : A -> M B) :
  preserves m -> (forall a, preserves (k a)) -> preserves (bind m k).
Proof.
  intros Hm Hk w. unfold bind. specialize (Hm w).
  destruct (m w) as [a w1|e w1]; simpl in *.
  - eapply readOnly_trans; [exact Hm|apply Hk].
  - exact Hm.
Qed.

Lemma preserves_log line : preserves (log line).
Proof. intros w. apply readOnly_emit. exact I. Qed.

Lemma preserves_all u : preserves (all u).
Proof.
  intros w. unfold all.
  destruct (reg_all (registry u) (url u)); apply readOnly_emit; exact I.
Qed.

Lemma preserves_content : preserves content.
Proof. intros w. apply readOnly_emit. exact I. Qed.

Lemma preserves_relocate u v : preserves (relocate u v).
Proof.
  unfold relocate. destruct v as [|c rest].
  - apply preserves_throw.
  - destruct (isModifier c && negb (Js.includes (url u) "#"));
      apply preserves_ret.
Qed.

#[local] Hint Resolve preserves_ret preserves_throw preserves_log
  preserves_all preserves_content preserves_relocate : frame.

(** With [dryRun], the last step of [update] only builds the outcome. *)
Lemma finish_dryRun u iUrl iVersion tok nv w :
  dryRun this = true ->
  finish u iUrl iVersion tok nv w =
    Ok (mkResult iUrl iVersion
          (Some (Js.toStr nv ++
                 yellow match tok with None => "" | Some t => "#" ++ t end))
          (Some true)) w.
Proof. intros Hd. unfold finish, bind. rewrite Hd. reflexivity. Qed.

Lemma preserves_resolve u iUrl iVersion tok versions :
  dryRun this = true ->
  preserves (resolve u iUrl iVersion tok versions).
Proof.
  intros Hd. unfold resolve.
  destruct (Semver_new (version u)).
  2:{ apply preserves_bind; auto with frame. }
  destruct (fragment (url u) (version u)) as [flt|e].
  2:{ destruct (Js.instanceofSyntaxError e); auto with frame. }
  destruct (choose flt (candidates iVersion versions)) as [|nv];
    [auto with frame|].
  destruct (strictEq (version u) (reattach tok nv) && isNull tok).
  - apply preserves_bind; auto with frame.
  - intros w. rewrite finish_dryRun by assumption. apply readOnly_refl.
Qed.

Lemma preserves_update u : dryRun this = true -> preserves (update u).
Proof.
  intros Hd. unfold update.
  apply preserves_bind; [auto with frame|intros _].
  apply preserves_bind; [auto with frame|intros versions].
  apply preserves_bind; [auto with frame|intros r].
  apply preserves_resolve. assumption.
Qed.

Lemma preserves_runLoop urls : dryRun this = true -> preserves (runLoop urls).
Proof.
  intros Hd. induction urls as [|s rest IH]; simpl.
  - apply preserves_ret.
  - destruct (lookup s) as [v|]; [|exact IH].
    apply preserves_bind; [apply preserves_update; assumption|intros r].
    apply preserves_bind; [exact IH|intros rs]. apply preserves_ret.
Qed.

(** C8. With [dryRun], [run] never writes the file and never calls the
    validation: whatever it returns or throws, the file is the one it found
    and the events it adds are reads, fetches and log lines.  The resolution
    still runs: the last step of [update] reports the target it chose, with
    success. *)
Theorem dry_run_never_writes :
  dryRun this = true ->
  (forall w,
     file (worldOf (run w)) = file w /\
     exists evs,
       trace (worldOf (run w)) = (evs ++ trace w)%list /\
       Forall quietEvent evs) /\
  (forall u iUrl iVersion tok nv w,
     finish u iUrl iVersion tok nv w =
       Ok (mkResult iUrl iVersion
             (Some (Js.toStr nv ++
                    yellow match tok with None => "" | Some t => "#" ++ t end))
             (Some true)) w).
Proof.
  intros Hd. split.
  - intros w.
    assert (Hp : preserves run).
    { unfold run. apply preserves_bind; [apply preserves_content|intros c].
      apply preserves_runLoop. assumption. }
    exact (Hp w).
  - intros. apply finish_dryRun. assumption.
Qed.

(** *** The branches of [update] *)

(** C6, as the code has it.  A reference whose versions were fetched and
    whose version is not empty and, after the relocation step, is no Semver
    is skipped: [update] returns [{initUrl, initVersion}] with neither
    message nor success, and the file is as it was, with nothing written or
    validated. *)
Theorem non_semver_skipped u w versions u' tok :
  reg_all (registry u) (url u) = Listed versions ->
  relocate u (version u) = ret (u', tok) ->
  Semver_new (version u') = None ->
  update u w =
    Ok (mkResult (url u) (version u) None None)
       (emit (EvLog ("Skip updating: " ++ url u')) (afterFetch u w))
  /\ file (worldOf (update u w)) = file w
  /\ readOnly w (worldOf (update u w)).
Proof.
  intros Hall Hrel Hsv.
  assert (Hu : update u w =
    Ok (mkResult (url u) (version u) None None)
       (emit (EvLog ("Skip updating: " ++ url u')) (afterFetch u w))).
  { rewrite (update_fetched u w versions u' tok Hall Hrel). unfold resolve. rewrite Hsv.
    reflexivity. }
  rewrite Hu. split; [reflexivity|]. split; [reflexivity|].
  simpl. eapply readOnly_trans; [apply readOnly_afterFetch|].
  apply readOnly_emit. exact I.
Qed.

(** C10. For a reference whose version is the empty string [update] throws
    and never returns an outcome; when the versions were fetched, what it
    throws is the TypeError of reading [match] on the missing first
    character, not the skip of a version that is no Semver. *)
Theorem empty_version_throws u w :
  version u = "" ->
  (exists e w', update u w = Throw e w') /\
  (forall versions,
     reg_all (registry u) (url u) = Listed versions ->
     update u w =
       Throw (Js.TypeError
                "Cannot read properties of undefined (reading 'match')")
             (afterFetch u w)).
Proof.
  intros Hv.
  assert (Hl : forall versions,
     reg_all (registry u) (url u) = Listed versions ->
     update u w =
       Throw (Js.TypeError
                "Cannot read properties of undefined (reading 'match')")
             (afterFetch u w)).
  { intros versions Hall. unfold update, bind, all, log.
    rewrite Hall, Hv. reflexivity. }
  split; [|exact Hl].
  destruct (reg_all (registry u) (url u)) as [versions|e] eqn:Hall.
  - eexists. eexists. apply (Hl versions). reflexivity.
  - eexists. eexists. apply update_fetch_failed. exact Hall.
Qed.


(** *** The choice of the target *)

Lemma compatible_cons f a vs :
  compatible f (a :: vs) =
  match semver a with
  | Some x =>
      if f x then sv_version x :: compatible f vs else compatible f vs
  | None => compatible f vs
  end.
Proof.
  unfold compatible. simpl. destruct (semver a) as [x|]; [|reflexivity].
  simpl. destruct (f x); reflexivity.
Qed.

(** The head of [compatible f vs] comes from the first version of [vs] that
    parses and passes [f]. *)
Lemma compatible_head f vs c0 tl :
  compatible f vs = c0 :: tl ->
  exists l1 s l2 x,
    vs = (l1 ++ s :: l2)%list /\ semver s = Some x /\ f x = true /\
    sv_version x = c0 /\
    (forall s' x', In s' l1 -> semver s' = Some x' -> f x' = false).
Proof.
  induction vs as [|a vs IH]; intros H.
  - discriminate H.
  - rewrite compatible_cons in H.
    destruct (semver a) as [x|] eqn:Ha.
    + destruct (f x) eqn:Hf.
      * exists [], a, vs, x. repeat split; try assumption.
        -- congruence.
        -- intros s' x' [].
      * destruct (IH H) as (l1 & s & l2 & y & -> & Hs & Hy & Hc & Hpre).
        exists (a :: l1), s, l2, y. repeat split; try assumption.
        intros s' x' [<-|Hin] Hs'; [congruence|eauto].
    + destruct (IH H) as (l1 & s & l2 & y & -> & Hs & Hy & Hc & Hpre).
      exists (a :: l1), s, l2, y. repeat split; try assumption.
      intros s' x' [<-|Hin] Hs'; [congruence|eauto].
Qed.

Lemma compatible_nil f vs :
  compatible f vs = [] <->
  (forall s x, In s vs -> semver s = Some x -> f x = false).
Proof.
  induction vs as [|a vs IH].
  - split; [intros _ s x []|reflexivity].
  - rewrite compatible_cons. split.
    + intros H s x [<-|Hin] Hs.
      * rewrite Hs in H. destruct (f x); [discriminate H|reflexivity].
      * destruct (semver a) as [y|].
        -- destruct (f y); [discriminate H|]. apply (proj1 IH H s x Hin Hs).
        -- apply (proj1 IH H s x Hin Hs).
    + intros H.
      assert (Hvs : compatible f vs = []).
      { apply IH. intros s x Hin. apply H. right. exact Hin. }
      destruct (semver a) as [y|] eqn:Ha; [|exact Hvs].
      rewrite (H a y (or_introl eq_refl) Ha). exact Hvs.
Qed.

(** [maybeReplace] returns the verdict of the validation, or throws what
    the validation threw, after the write and without undoing it. *)
Lemma maybeReplace_total u nv iUrl w :
  (exists failed w', maybeReplace u nv iUrl w = Ok failed w')
  \/ (exists e w1 w',
        test this w1 = Throws e /\
        maybeReplace u nv iUrl w = Throw e w' /\
        file w' = Js.join (Js.split (file w) iUrl) (at_url u nv)).
Proof.
  cbv beta iota zeta delta
    [bind maybeReplace replace content writeFile runTest ret].
  match goal with
  | |- context [test this ?x] => destruct (test this x) as [| |e] eqn:Ht
  end.
  - left. eexists false, _. reflexivity.
  - left. eexists true, _. reflexivity.
  - right. eexists e, _, _. split; [exact Ht|]. split; reflexivity.
Qed.

(** What the last step of [update] returns: the target and the fragment in
    the message, and success unless the validation rejected the write.  It
    throws only what the validation threw. *)
Lemma finish_outcome u iUrl iVersion tok nv w :
  (exists failed w',
      finish u iUrl iVersion tok nv w =
        Ok (mkResult iUrl iVersion
              (Some (Js.toStr nv ++
                     yellow match tok with None => "" | Some t => "#" ++ t end))
              (Some (negb failed))) w')
  \/ (exists e w1 w',
        dryRun this = false /\
        test this w1 = Throws e /\
        finish u iUrl iVersion tok nv w = Throw e w' /\
        file w' = Js.join (Js.split (file w) iUrl) (at_url u nv)).
Proof.
  cbv beta delta [finish].
  destruct (dryRun this).
  - left. exists false, w. reflexivity.
  - cbv beta iota zeta delta
      [negb bind log maybeReplace replace content writeFile runTest ret].
    match goal with
    | |- context [test this ?x] => destruct (test this x) as [| |e] eqn:Ht
    end.
    + left. eexists false, _. reflexivity.
    + left. eexists true, _. reflexivity.
    + right. eexists e, _, _. split; [reflexivity|]. split; [exact Ht|].
      split; reflexivity.
Qed.

(** C3, as the code has it.  With a constraint [f], the target is taken from
    the candidates, which are the fetched versions after the prerelease
    filter: it is the version text of the first candidate, in the order of
    the provider, that parses as Semver and passes [f].  When no candidate
    does, [update] returns the failure [no compatible version found] and the
    file is as it was. *)
Theorem constrained_target u w versions u' tok sv f :
  reg_all (registry u) (url u) = Listed versions ->
  relocate u (version u) = ret (u', tok) ->
  Semver_new (version u') = Some sv ->
  fragment (url u') (version u') = Returns (Some f) ->
  match compatible f (candidates (version u) versions) with
  | [] =>
      (forall s x, In s (candidates (version u) versions) ->
                   semver s = Some x -> f x = false)
      /\ update u w =
           Ok (mkResult (url u) (version u)
                 (Some "no compatible version found") (Some false))
              (afterFetch u w)
      /\ file (worldOf (update u w)) = file w
      /\ readOnly w (worldOf (update u w))
  | c0 :: _ =>
      (exists l1 s l2 x,
          candidates (version u) versions = (l1 ++ s :: l2)%list /\
          semver s = Some x /\ f x = true /\ sv_version x = c0 /\
          (forall s' x', In s' l1 -> semver s' = Some x' -> f x' = false))
      /\ choose (Some f) (candidates (version u) versions) = Target (Some c0)
      /\ update u w =
           (if strictEq (version u') (reattach tok (Some c0)) && isNull tok
            then log ("Using latest: " ++ url u') ;;;
                 ret (mkResult (url u) (version u) None None)
            else finish u' (url u) (version u) tok (reattach tok (Some c0)))
             (afterFetch u w)
  end.
Proof.
  intros Hall Hrel Hsv Hfrag.
  pose proof (update_fetched u w versions u' tok Hall Hrel) as Hu.
  unfold resolve in Hu. rewrite Hsv, Hfrag in Hu. unfold choose in Hu.
  destruct (compatible f (candidates (version u) versions)) as [|c0 tl] eqn:Hc.
  - split; [apply compatible_nil; exact Hc|].
    rewrite Hu. simpl. split; [reflexivity|]. split; [reflexivity|].
    apply readOnly_afterFetch.
  - split; [apply (compatible_head _ _ _ _ Hc)|].
    split; [unfold choose; rewrite Hc; reflexivity|].
    exact Hu.
Qed.

(** The token of the relocation step, when there is one, is a modifier. *)
Lemma relocate_token u v u' tok :
  relocate u v = ret (u', tok) ->
  (tok = None /\ u' = u) \/
  (exists c rest, v = String c rest /\ isModifier c = true /\
                  Js.includes (url u) "#" = false /\
                  tok = Some (Js.chr c) /\
                  u' = set_url u (at_url u (Some rest) ++ "#" ++ Js.chr c)).
Proof.
  intros H.
  assert (Hw : relocate u v (mkWorld "" []) = ret (u', tok) (mkWorld "" []))
    by (rewrite H; reflexivity).
  unfold relocate in Hw. destruct v as [|c rest]; [discriminate Hw|].
  destruct (isModifier c) eqn:Hm; simpl in Hw.
  - destruct (Js.includes (url u) "#") eqn:Hi; simpl in Hw;
      unfold ret in Hw; injection Hw as <- <-.
    + left. split; reflexivity.
    + right. exists c, rest. repeat split; reflexivity || assumption.
  - unfold ret in Hw. injection Hw as <- <-. left. split; reflexivity.
Qed.

(** C9. A stable version that parses, no constraint, and no version left
    by the prerelease filter: the target is [undefined], the head of an
    empty list.  [update] does not fail with [no compatible version found]
    but goes on to its last step with that target, and unless [dryRun] it
    writes the file through [maybeReplace] with it: [update] returns the
    outcome with the verdict of [maybeReplace], and throws what
    [maybeReplace] throws. *)
Theorem empty_candidates_undefined_target u w versions u' tok sv :
  reg_all (registry u) (url u) = Listed versions ->
  relocate u (version u) = ret (u', tok) ->
  Semver_new (version u') = Some sv ->
  getPrereleaseVersion (version u) = None ->
  fragment (url u') (version u') = Returns None ->
  filter (fun v => isNull (getPrereleaseVersion v)) versions = [] ->
  choose None (candidates (version u) versions) = Target None
  /\ update u w =
       finish u' (url u) (version u) tok (reattach tok None) (afterFetch u w)
  /\ (forall w',
        update u w <>
        Ok (mkResult (url u) (version u)
              (Some "no compatible version found") (Some false)) w')
  /\ (dryRun this = false ->
      match
        maybeReplace u' (reattach tok None) (url u)
          (emit (EvLog ("Attempting update: " ++ url u' ++ " -> " ++
                        Js.toStr (reattach tok None))) (afterFetch u w))
      with
      | Ok failed w2 =>
          update u w =
            Ok (mkResult (url u) (version u)
                  (Some (Js.toStr (reattach tok None) ++
                         yellow match tok with
                                | None => ""
                                | Some t => "#" ++ t
                                end))
                  (Some (negb failed)))
               (emit (EvLog ("Update " ++
                             (if failed then "failed" else "successful") ++
                             ": " ++ url u' ++ " -> " ++
                             Js.toStr (reattach tok None))) w2)
      | Throw e w2 => update u w = Throw e w2
      end).
Proof.
  intros Hall Hrel Hsv Hpre Hfrag Hnone.
  pose proof (update_fetched u w versions u' tok Hall Hrel) as Hu.
  assert (Hc : candidates (version u) versions = []).
  { unfold candidates. rewrite Hpre. simpl. exact Hnone. }
  assert (Hch : choose None (candidates (version u) versions) = Target None).
  { unfold choose. rewrite Hc. reflexivity. }
  assert (Hs : strictEq (version u') (reattach tok None) && isNull tok = false).
  { destruct tok; simpl; [apply andb_false_r|reflexivity]. }
  unfold resolve in Hu. rewrite Hsv, Hfrag, Hch in Hu.
  cbv beta iota zeta in Hu. rewrite Hs in Hu.
  split; [exact Hch|].
  split; [exact Hu|]. split.
  - intros w' Heq. rewrite Hu in Heq.
    destruct (finish_outcome u' (url u) (version u) tok (reattach tok None)
                (afterFetch u w))
      as [(failed & w2 & Hf)|(e & w1 & w2 & _ & _ & Hf & _)];
      rewrite Hf in Heq; [|discriminate Heq].
    injection Heq as Hm _ _.
    destruct (relocate_token u (version u) u' tok Hrel)
      as [[-> _]|(c & rest & _ & Hmod & _ & -> & _)].
    + discriminate Hm.
    + simpl in Hm. injection Hm as Hc0 _. subst c. discriminate Hmod.
  - intros Hd.
    rewrite Hu. cbv beta delta [finish]. rewrite Hd.
    cbv beta iota zeta delta [negb bind log ret].
    destruct (maybeReplace u' (reattach tok None) (url u)
                (emit (EvLog ("Attempting update: " ++ url u' ++ " -> " ++
                              Js.toStr (reattach tok None))) (afterFetch u w)));
      reflexivity.
Qed.

(** C2, as the code has it.  A version with a leading modifier in a URL
    without fragment: the relocation step moves the modifier into the
    fragment of the URL, and the target gets the modifier back in front.
    When the relocated version parses, the constraint parses and a target
    is chosen, the message of the outcome is the modifier, the chosen
    version and then [colors.yellow] of the fragment ([#] and the
    modifier); [update] returns no outcome only when the validation throws
    instead of returning a promise. *)
Theorem modifier_relocated_message u w c rest versions sv flt nv :
  version u = String c rest ->
  isModifier c = true ->
  Js.includes (url u) "#" = false ->
  reg_all (registry u) (url u) = Listed versions ->
  let u' := set_url u (at_url u (Some rest) ++ "#" ++ Js.chr c) in
  Semver_new (version u') = Some sv ->
  fragment (url u') (version u') = Returns flt ->
  choose flt (candidates (version u) versions) = Target nv ->
  relocate u (version u) = ret (u', Some (Js.chr c))
  /\ reattach (Some (Js.chr c)) nv = Some (Js.chr c ++ Js.toStr nv)
  /\ ((exists failed w',
         update u w =
           Ok (mkResult (url u) (version u)
                 (Some ((Js.chr c ++ Js.toStr nv) ++ yellow ("#" ++ Js.chr c)))
                 (Some (negb failed))) w')
      \/ (exists e w1 w',
            dryRun this = false /\ test this w1 = Throws e /\
            update u w = Throw e w')).
Proof.
  intros Hv Hmod Hinc Hall u' Hsv Hfrag Hch.
  assert (Hrel : relocate u (version u) = ret (u', Some (Js.chr c))).
  { rewrite Hv. unfold relocate. rewrite Hmod, Hinc. reflexivity. }
  split; [exact Hrel|]. split; [reflexivity|].
  rewrite (update_fetched u w versions u' (Some (Js.chr c)) Hall Hrel).
  unfold resolve. rewrite Hsv, Hfrag, Hch.
  cbv beta iota zeta. simpl isNull. rewrite andb_false_r.
  destruct (finish_outcome u' (url u) (version u) (Some (Js.chr c))
              (reattach (Some (Js.chr c)) nv) (afterFetch u w))
    as [(failed & w' & Hf)|(e & w1 & w' & Hd & Ht & Hf & _)].
  - left. exists failed, w'. exact Hf.
  - right. exists e, w1, w'. split; [exact Hd|]. split; [exact Ht|exact Hf].
Qed.

(** *** The prerelease filter *)






(** *** What throws and what is recorded *)

(** [resolve] throws only what the parse of the constraint throws, when it
    is no SyntaxError, and what the validation throws. *)
Lemma resolve_throw_inv u iUrl iVersion tok versions w e w' :
  resolve u iUrl iVersion tok versions w = Throw e w' ->
  (fragment (url u) (version u) = Raises e /\
   Js.instanceofSyntaxError e = false /\ w' = w)
  \/ (dryRun this = false /\ exists w1, test this w1 = Throws e).
Proof.
  unfold resolve. destruct (Semver_new (version u)); [|discriminate].
  destruct (fragment (url u) (version u)) as [flt|e0].
  - destruct (choose flt (candidates iVersion versions)) as [|nv];
      [discriminate|].
    destruct (strictEq (version u) (reattach tok nv) && isNull tok);
      [discriminate|].
    destruct (finish_outcome u iUrl iVersion tok (reattach tok nv) w)
      as [(failed & w2 & ->)|(e1 & w1 & w2 & Hd & Ht & -> & _)];
      [discriminate|].
    intros H. injection H as <- _. right. split; [exact Hd|].
    exists w1. exact Ht.
  - destruct (Js.instanceofSyntaxError e0) eqn:Hs; [discriminate|].
    unfold throw. intros H. injection H as -> <-. left.
    split; [reflexivity|]. split; [exact Hs|reflexivity].
Qed.


(** The loop of [run] over two lists in a row. *)
Lemma runLoop_app pre post w :
  runLoop (pre ++ post)%list w =
  match runLoop pre w with
  | Ok rs w1 =>
      match runLoop post w1 with
      | Ok rs' w2 => Ok (rs ++ rs')%list w2
      | Throw e w2 => Throw e w2
      end
  | Throw e w1 => Throw e w1
  end.
Proof.
  revert w. induction pre as [|s pre IH]; intros w; simpl.
  - unfold ret. destruct (runLoop post w); reflexivity.
  - destruct (lookup s) as [v|]; [|apply IH].
    unfold bind. destruct (update v w) as [r w1|e w1]; [|reflexivity].
    rewrite IH. destruct (runLoop pre w1) as [rs w2|e w2]; [|reflexivity].
    unfold ret. destruct (runLoop post w2); reflexivity.
Qed.


(** X2. The write of [maybeReplace] and its undoing: when the validation
    rejects, the file holds the text after the substitution of the new URL
    for the old one and then of the old one for the new one. *)
Lemma maybeReplace_rejected u nv iUrl w :
  (forall w', test this w' = Rejects) ->
  exists w',
    maybeReplace u nv iUrl w = Ok true w' /\
    file w' =
      Js.join
        (Js.split (Js.join (Js.split (file w) iUrl) (at_url u nv))
           (at_url u nv))
        iUrl.
Proof.
  intros Hrej.
  cbv beta iota zeta delta
    [bind maybeReplace replace content writeFile runTest ret].
  rewrite Hrej. eexists. split; reflexivity.
Qed.

(** ** More of the engine *)

(** *** [split] and [join] *)

Lemma append_nil_r (s : string) : s ++ "" = s.
Proof. induction s as [|c s IH]; simpl; [reflexivity|rewrite IH; reflexivity]. Qed.

Lemma append_assoc (a b c : string) : (a ++ b) ++ c = a ++ (b ++ c).
Proof. induction a as [|x a IH]; simpl; [reflexivity|rewrite IH; reflexivity]. Qed.

Lemma length_append (a b : string) :
  String.length (a ++ b) = String.length a + String.length b.
Proof. induction a as [|x a IH]; simpl; [reflexivity|rewrite IH; reflexivity]. Qed.

Lemma startsWith_append p t : Js.startsWith p (p ++ t) = true.
Proof.
  induction p as [|a p IH]; simpl; [reflexivity|].
  rewrite Ascii.eqb_refl. exact IH.
Qed.

Lemma startsWith_inv p s :
  Js.startsWith p s = true -> exists t, s = p ++ t.
Proof.
  revert s. induction p as [|a p IH]; intros s H.
  - exists s. reflexivity.
  - destruct s as [|b s]; [discriminate H|]. simpl in H.
    apply andb_prop in H. destruct H as [Hab Hp].
    apply Ascii.eqb_eq in Hab. subst b.
    destruct (IH s Hp) as [t ->]. exists t. reflexivity.
Qed.

Lemma includes_startsWith s p : Js.startsWith p s = true -> Js.includes s p = true.
Proof. intros H. destruct s; simpl; rewrite H; reflexivity. Qed.

Lemma includes_cons c s p :
  Js.includes (String c s) p = Js.startsWith p (String c s) || Js.includes s p.
Proof. reflexivity. Qed.

(** A text holds every text that is written into it. *)
Lemma includes_append a p b : Js.includes (a ++ p ++ b) p = true.
Proof.
  induction a as [|c a IH].
  - change ("" ++ p ++ b) with (p ++ b).
    apply includes_startsWith. apply startsWith_append.
  - change (String c a ++ p ++ b) with (String c (a ++ p ++ b)). rewrite includes_cons, IH. apply orb_true_r.
Qed.

(** The scan passes over the rest of a separator it has matched. *)
Lemma split_scan_skip sep p t cur :
  Js.split_scan sep (String.length p) cur (p ++ t) = Js.split_scan sep 0 cur t.
Proof. induction p as [|a p IH]; simpl; [reflexivity|exact IH]. Qed.

Lemma split_scan_cons sep cur c s :
  Js.split_scan sep 0 cur (String c s) =
  if Js.startsWith sep (String c s)
  then cur :: Js.split_scan sep (String.length sep - 1) "" s
  else Js.split_scan sep 0 (cur ++ Js.chr c) s.
Proof. reflexivity. Qed.

(** At a separator the scan closes the piece and goes on after it. *)
Lemma split_scan_match a sep cur t :
  Js.split_scan (String a sep) 0 cur (String a sep ++ t) =
  cur :: Js.split_scan (String a sep) 0 "" t.
Proof.
  change (String a sep ++ t) with (String a (sep ++ t)).
  rewrite split_scan_cons.
  change (String a (sep ++ t)) with (String a sep ++ t).
  rewrite startsWith_append.
  change (String.length (String a sep) - 1) with (String.length sep - 0).
  rewrite Nat.sub_0_r. rewrite split_scan_skip. reflexivity.
Qed.

Lemma split_scan_not_nil sep k cur s : Js.split_scan sep k cur s <> [].
Proof.
  revert k cur. induction s as [|c s IH]; intros k cur; simpl.
  - discriminate.
  - destruct k as [|k]; [|apply IH].
    destruct (Js.startsWith sep (String c s)); [discriminate|apply IH].
Qed.

Lemma join_cons x l sep :
  l <> [] -> Js.join (x :: l) sep = x ++ sep ++ Js.join l sep.
Proof. intros H. destruct l; [contradiction|reflexivity]. Qed.

Lemma join_split_scan a sep n :
  forall s cur,
    String.length s <= n ->
    Js.join (Js.split_scan (String a sep) 0 cur s) (String a sep) = cur ++ s.
Proof.
  induction n as [|n IH]; intros s cur Hn.
  - destruct s; [|simpl in Hn; lia]. simpl. rewrite append_nil_r. reflexivity.
  - destruct s as [|c s]; [simpl; rewrite append_nil_r; reflexivity|].
    destruct (Js.startsWith (String a sep) (String c s)) eqn:Hs.
    + destruct (startsWith_inv _ _ Hs) as [t Ht]. rewrite Ht.
      rewrite split_scan_match.
      rewrite join_cons by apply split_scan_not_nil.
      rewrite IH.
      * reflexivity.
      * assert (Hl : String.length (String c s) =
                     String.length (String a sep ++ t)) by (rewrite Ht; reflexivity).
        rewrite length_append in Hl. simpl in Hl, Hn. lia.
    + rewrite split_scan_cons, Hs. rewrite IH by (simpl in Hn; lia).
      rewrite append_assoc. reflexivity.
Qed.

Lemma join_units s : Js.join (Js.units s) "" = s.
Proof.
  induction s as [|c s IH]; [reflexivity|].
  simpl Js.units. destruct s as [|d s]; [reflexivity|].
  rewrite join_cons by discriminate. rewrite IH. reflexivity.
Qed.

Lemma join_split_id s sep : Js.join (Js.split s sep) sep = s.
Proof.
  destruct sep as [|a sep]; simpl Js.split.
  - apply join_units.
  - apply (join_split_scan a sep (String.length s) s ""). lia.
Qed.

(** X1. Joining the pieces of a split with the separator itself gives the
    text back: [s.split(sep).join(sep)] is [s], for every text and every
    separator, the empty one included; so [replace(left, left)] writes the
    text it read. *)
Theorem join_split_same s sep :
  Js.join (Js.split s sep) sep = s
  /\ forall w,
       replace sep sep w =
       Ok tt (mkWorld (file w) (EvWrite (file w) :: EvRead :: trace w)).
Proof.
  split; [apply join_split_id|].
  intros w. unfold replace, bind, content, writeFile. simpl.
  rewrite join_split_id. reflexivity.
Qed.

Lemma split_scan_absent sep s :
  forall cur,
    Js.includes s sep = false ->
    Js.split_scan sep 0 cur s = [cur ++ s].
Proof.
  induction s as [|c s IH]; intros cur H.
  - simpl. rewrite append_nil_r. reflexivity.
  - rewrite includes_cons in H. apply orb_false_elim in H.
    destruct H as [Hs Hi].
    rewrite split_scan_cons, Hs, (IH _ Hi), append_assoc. reflexivity.
Qed.

(** X3. Substituting for a text that does not occur changes nothing:
    when [content] does not include [left], [content.split(left).join(right)]
    is [content]; [replace] then writes the file with the text it read. *)
Theorem replace_absent left right w :
  Js.includes (file w) left = false ->
  Js.join (Js.split (file w) left) right = file w
  /\ replace left right w =
       Ok tt (mkWorld (file w) (EvWrite (file w) :: EvRead :: trace w)).
Proof.
  intros H.
  assert (Hj : Js.join (Js.split (file w) left) right = file w).
  { destruct left as [|a left].
    - destruct (file w); discriminate H.
    - simpl Js.split. rewrite (split_scan_absent _ _ "" H). reflexivity. }
  split; [exact Hj|].
  unfold replace, bind, content, writeFile. simpl. rewrite Hj. reflexivity.
Qed.

(** *** The undoing of a write *)

(** X4. When the validation always rejects, [maybeReplace] gives the file
    back whenever the new URL cuts the written text into the pieces into
    which the old URL cut the text before: the second substitution then
    undoes the first. *)
Theorem maybeReplace_restores u nv iUrl w :
  (forall w', test this w' = Rejects) ->
  Js.split (Js.join (Js.split (file w) iUrl) (at_url u nv)) (at_url u nv)
    = Js.split (file w) iUrl ->
  exists w', maybeReplace u nv iUrl w = Ok true w' /\ file w' = file w.
Proof.
  intros Hrej Hsplit.
  cbv beta iota zeta delta
    [bind maybeReplace replace content writeFile runTest ret].
  rewrite Hrej. eexists. split; [reflexivity|].
  cbn [file emit]. rewrite Hsplit. apply join_split_id.
Qed.

(** *** What [update] returns *)

(** For the empty version [update] throws once the versions are fetched. *)
Lemma empty_version_throws_aux u w versions :
  reg_all (registry u) (url u) = Listed versions ->
  version u = "" ->
  exists e, update u w = Throw e (afterFetch u w).
Proof.
  intros Hall Hv. eexists. unfold update, bind, all, log.
  rewrite Hall, Hv. reflexivity.
Qed.

(** The ways through [update]: the fetch fails, the version is empty, or
    [update] is [resolve] after the relocation step. *)
Lemma update_cases u w :
  (exists e,
      reg_all (registry u) (url u) = FetchFailed e /\
      update u w = Throw e (afterFetch u w))
  \/ (exists versions,
        reg_all (registry u) (url u) = Listed versions /\
        ((version u = "" /\ exists e, update u w = Throw e (afterFetch u w))
         \/ exists u' tok,
              relocate u (version u) = ret (u', tok) /\
              update u w =
                resolve u' (url u) (version u) tok versions (afterFetch u w))).
Proof.
  destruct (reg_all (registry u) (url u)) as [versions|e] eqn:Hall.
  - right. exists versions. split; [reflexivity|].
    destruct (version u) as [|c rest] eqn:Hv.
    + left. split; [reflexivity|].
      destruct (empty_version_throws_aux u w versions Hall Hv) as [e He].
      exists e. exact He.
    + right.
      assert (Hrel : exists u' tok, relocate u (version u) = ret (u', tok)).
      { rewrite Hv. unfold relocate.
        destruct (isModifier c && negb (Js.includes (url u) "#"));
          eexists; eexists; reflexivity. }
      destruct Hrel as (u' & tok & Hrel). exists u', tok.
      rewrite <- Hv. split; [exact Hrel|].
      apply (update_fetched u w versions u' tok Hall Hrel).
  - left. exists e. split; [reflexivity|].
    apply update_fetch_failed. exact Hall.
Qed.

(** An outcome has its message and its success both set or both absent. *)
Definition wellShaped (r : UddResult) : Prop :=
  (message r = None /\ success r = None) \/
  (exists m b, message r = Some m /\ success r = Some b).

Lemma resolve_outcome u iUrl iVersion tok versions w r w' :
  resolve u iUrl iVersion tok versions w = Ok r w' ->
  initUrl r = iUrl /\ initVersion r = iVersion /\ wellShaped r
  /\ (success r = None -> readOnly w w').
Proof.
  assert (Hskip : forall line r0 w0,
            (log line ;;; ret (mkResult iUrl iVersion None None)) w = Ok r0 w0 ->
            initUrl r0 = iUrl /\ initVersion r0 = iVersion /\ wellShaped r0
            /\ (success r0 = None -> readOnly w w0)).
  { intros line r0 w0 H. unfold bind, log, ret in H. injection H as <- <-.
    split; [reflexivity|]. split; [reflexivity|].
    split; [left; split; reflexivity|].
    intros _. apply readOnly_emit. exact I. }
  assert (Hset : forall m b r0 w0,
            Ok (mkResult iUrl iVersion (Some m) (Some b)) w = Ok r0 w0 ->
            initUrl r0 = iUrl /\ initVersion r0 = iVersion /\ wellShaped r0
            /\ (success r0 = None -> readOnly w w0)).
  { intros m b r0 w0 H. injection H as <- <-.
    split; [reflexivity|]. split; [reflexivity|].
    split; [right; exists m, b; split; reflexivity|].
    intros Hn. discriminate Hn. }
  unfold resolve. destruct (Semver_new (version u)); [|apply Hskip].
  destruct (fragment (url u) (version u)) as [flt|e].
  2:{ destruct (Js.instanceofSyntaxError e); [apply Hset|discriminate]. }
  destruct (choose flt (candidates iVersion versions)) as [|nv];
    [apply Hset|].
  destruct (strictEq (version u) (reattach tok nv) && isNull tok);
    [apply Hskip|].
  destruct (finish_outcome u iUrl iVersion tok (reattach tok nv) w)
    as [(failed & w2 & ->)|(e & w1 & w2 & _ & _ & -> & _)];
    [|discriminate].
  intros H. injection H as <- <-.
  split; [reflexivity|]. split; [reflexivity|].
  split; [right; eexists; eexists; split; reflexivity|].
  intros Hn. discriminate Hn.
Qed.

Lemma update_outcome u w r w' :
  update u w = Ok r w' ->
  initUrl r = url u /\ initVersion r = version u /\ wellShaped r.
Proof.
  intros H.
  destruct (update_cases u w) as [(e & _ & Hu)|(versions & _ & [(_ & e & Hu)|Hu])].
  - rewrite Hu in H. discriminate H.
  - rewrite Hu in H. discriminate H.
  - destruct Hu as (u' & tok & _ & Hu). rewrite Hu in H.
    destruct (resolve_outcome _ _ _ _ _ _ _ _ H) as (H1 & H2 & H3 & _).
    split; [exact H1|]. split; [exact H2|exact H3].
Qed.

(** X5. Every outcome that [update] returns carries the URL and the version
    of the reference as they were on entry, also when the relocation step
    changed the URL object, and has its message and its success both set or
    both absent. *)
Theorem update_outcome_shape u w r w' :
  update u w = Ok r w' ->
  initUrl r = url u /\ initVersion r = version u /\
  ((message r = None /\ success r = None) \/
   (exists m b, message r = Some m /\ success r = Some b)).
Proof. apply update_outcome. Qed.

Lemma update_quiet u w :
  match update u w with
  | Throw e w' =>
      readOnly w w' \/ (dryRun this = false /\ exists w1, test this w1 = Throws e)
  | Ok r w' => success r = None -> readOnly w w'
  end.
Proof.
  destruct (update_cases u w) as [(e & _ & Hu)|(versions & _ & [(_ & e & Hu)|Hu])].
  - rewrite Hu. left. apply readOnly_afterFetch.
  - rewrite Hu. left. apply readOnly_afterFetch.
  - destruct Hu as (u' & tok & _ & Hu). rewrite Hu.
    destruct (resolve u' (url u) (version u) tok versions (afterFetch u w))
      as [r w'|e w'] eqn:Hr.
    + intros Hs.
      eapply readOnly_trans; [apply readOnly_afterFetch|].
      apply (resolve_outcome _ _ _ _ _ _ _ _ Hr). exact Hs.
    + destruct (resolve_throw_inv _ _ _ _ _ _ _ _ Hr) as [(_ & _ & ->)|Ht].
      * left. apply readOnly_afterFetch.
      * right. exact Ht.
Qed.

(** X7. The writes of [update] come last.  When [update] returns an outcome
    without success (a skipped reference, or one at its latest version), the
    file is as it was and nothing was written or validated.  The same holds
    when [update] throws, unless what it throws is what the validation
    threw instead of returning a promise: that error leaves [update] after
    the write. *)
Theorem update_quiet_unless_reported u w :
  match update u w with
  | Throw e w' =>
      (file w' = file w /\
       exists evs, trace w' = (evs ++ trace w)%list /\ Forall quietEvent evs)
      \/ (dryRun this = false /\ exists w1, test this w1 = Throws e)
  | Ok r w' =>
      success r = None ->
      file w' = file w /\
      exists evs, trace w' = (evs ++ trace w)%list /\ Forall quietEvent evs
  end.
Proof. exact (update_quiet u w). Qed.

(** *** What [run] returns *)

(** X6. When [run] returns, its outcomes are those of the URLs that a
    registry matches, one each and in the order of the scan: their [initUrl]
    are the URLs of the matched references, their [initVersion] the versions
    of these. *)
Theorem run_outcomes_follow_scan w rs w' :
  run w = Ok rs w' ->
  map initUrl rs = map url (defined (map lookup (importUrls (file w))))
  /\ map initVersion rs =
     map version (defined (map lookup (importUrls (file w)))).
Proof.
  unfold run, bind, content.
  generalize (emit EvRead w). generalize (importUrls (file w)).
  intros urls. revert rs w'.
  induction urls as [|s rest IH]; intros rs w' w0 H.
  - simpl in H. unfold ret in H. injection H as <- _. split; reflexivity.
  - simpl in H. simpl map. destruct (lookup s) as [v|]; [|apply (IH _ _ _ H)].
    unfold bind in H.
    destruct (update v w0) as [r w1|e w1] eqn:Hu; [|discriminate H].
    destruct (runLoop rest w1) as [rs1 w2|e w2] eqn:Hr; [|discriminate H].
    unfold ret in H. injection H as <- _.
    destruct (update_outcome v w0 r w1 Hu) as (H1 & H2 & _).
    destruct (IH _ _ _ Hr) as [I1 I2].
    simpl. rewrite H1, H2, I1, I2. split; reflexivity.
Qed.

(** *** The write and the reference at its latest version *)


Lemma update_latest u w versions sv flt :
  reg_all (registry u) (url u) = Listed versions ->
  relocate u (version u) = ret (u, None) ->
  Semver_new (version u) = Some sv ->
  fragment (url u) (version u) = Returns flt ->
  choose flt (candidates (version u) versions) = Target (Some (version u)) ->
  update u w =
    Ok (mkResult (url u) (version u) None None)
       (emit (EvLog ("Using latest: " ++ url u)) (afterFetch u w))
  /\ readOnly w (worldOf (update u w)).
Proof.
  intros Hall Hrel Hsv Hfrag Hch.
  assert (Hu : update u w =
    Ok (mkResult (url u) (version u) None None)
       (emit (EvLog ("Using latest: " ++ url u)) (afterFetch u w))).
  { rewrite (update_fetched u w versions u None Hall Hrel).
    assert (Hs : strictEq (version u) (reattach None (Some (version u)))
                 && @isNull string None = true).
    { unfold strictEq, reattach, isNull. rewrite String.eqb_refl.
      reflexivity. }
    unfold resolve. rewrite Hsv, Hfrag, Hch. cbv beta iota zeta.
    rewrite Hs. reflexivity. }
  split; [exact Hu|]. rewrite Hu. simpl worldOf.
  eapply readOnly_trans; [apply readOnly_afterFetch|].
  apply readOnly_emit. exact I.
Qed.

(** X9. A reference at its latest version is left alone: when the target
    chosen is the version of the reference and no modifier was relocated,
    [update] returns [{initUrl, initVersion}] without message or success,
    whatever the options, and nothing is written or validated. *)
Theorem update_latest_untouched u w versions sv flt :
  reg_all (registry u) (url u) = Listed versions ->
  relocate u (version u) = ret (u, None) ->
  Semver_new (version u) = Some sv ->
  fragment (url u) (version u) = Returns flt ->
  choose flt (candidates (version u) versions) = Target (Some (version u)) ->
  update u w =
    Ok (mkResult (url u) (version u) None None)
       (emit (EvLog ("Using latest: " ++ url u)) (afterFetch u w))
  /\ readOnly w (worldOf (update u w)).
Proof. apply update_latest. Qed.

Lemma hd_error_filter {A} (p : A -> bool) l v :
  hd_error l = Some v -> p v = true -> hd_error (filter p l) = Some v.
Proof.
  intros Hl Hp. destruct l as [|a l]; [discriminate Hl|].
  simpl in Hl. injection Hl as ->. simpl. rewrite Hp. reflexivity.
Qed.

Lemma hd_error_filter_inv {A} (p : A -> bool) l v :
  hd_error (filter p l) = Some v -> p v = true.
Proof.
  induction l as [|a l IH]; [discriminate|]. simpl.
  destruct (p a) eqn:Hp; [|exact IH].
  simpl. intros H. injection H as <-. exact Hp.
Qed.

(** The head of the candidates of any version is the head of its own
    candidates. *)
Lemma candidates_head_settles i versions v :
  hd_error (candidates i versions) = Some v ->
  hd_error (candidates v versions) = Some v.
Proof.
  unfold candidates.
  destruct (isNull (getPrereleaseVersion i)) eqn:Hi; simpl negb; cbv iota.
  - intros H. pose proof (hd_error_filter_inv _ _ _ H) as Hv.
    rewrite Hv. simpl. exact H.
  - intros H. destruct (isNull (getPrereleaseVersion v)) eqn:Hv; simpl.
    + apply hd_error_filter; assumption.
    + exact H.
Qed.

(** X10. The default target settles.  A reference without constraint whose
    version is the first candidate of some version [i], as it is after a
    committed update from [i] to the default target, is left alone for the
    same listing, whether [i] was a prerelease or not: [update] returns
    [{initUrl, initVersion}] without message or success and writes nothing.
    Its log line is [Using latest] when the version parses as Semver and
    [Skip updating] when it does not. *)
Theorem update_settles i u w versions :
  hd_error (candidates i versions) = Some (version u) ->
  reg_all (registry u) (url u) = Listed versions ->
  relocate u (version u) = ret (u, None) ->
  fragment (url u) (version u) = Returns None ->
  update u w =
    Ok (mkResult (url u) (version u) None None)
       (emit (EvLog ((if isNull (Semver_new (version u))
                      then "Skip updating: " else "Using latest: ") ++ url u))
          (afterFetch u w))
  /\ readOnly w (worldOf (update u w)).
Proof.
  intros Hi Hall Hrel Hfrag.
  assert (Hu : update u w =
    Ok (mkResult (url u) (version u) None None)
       (emit (EvLog ((if isNull (Semver_new (version u))
                      then "Skip updating: " else "Using latest: ") ++ url u))
          (afterFetch u w))).
  { destruct (Semver_new (version u)) as [sv|] eqn:Hsv.
    - apply (update_latest u w versions sv None Hall Hrel Hsv Hfrag).
      unfold choose.
      rewrite (candidates_head_settles i versions (version u) Hi).
      reflexivity.
    - rewrite (update_fetched u w versions u None Hall Hrel).
      unfold resolve. rewrite Hsv. reflexivity. }
  split; [exact Hu|]. rewrite Hu. simpl worldOf.
  eapply readOnly_trans; [apply readOnly_afterFetch|].
  apply readOnly_emit. exact I.
Qed.

(** X11. The relocation happens once.  The URL that the relocation step
    leaves has a fragment, so the step, taken again on it, changes nothing
    and relocates no modifier, whatever the version. *)
Theorem relocate_once u v u' t :
  relocate u v = ret (u', Some t) ->
  Js.includes (url u') "#" = true
  /\ forall c rest, relocate u' (String c rest) = ret (u', None).
Proof.
  intros H.
  destruct (relocate_token u v u' (Some t) H)
    as [[Hn _]|(c & rest & _ & _ & _ & _ & ->)]; [discriminate Hn|].
  assert (Hi : Js.includes
                 (url (set_url u (at_url u (Some rest) ++ "#" ++ Js.chr c)))
                 "#" = true).
  { exact (includes_append (at_url u (Some rest)) "#" (Js.chr c)). }
  split; [exact Hi|].
  intros c' rest'. unfold relocate. rewrite Hi.
  rewrite andb_false_r. reflexivity.
Qed.

(** X13. A run that aborts keeps what it wrote.  When the references before
    a reference were processed and [update] throws on it, [run]'s loop
    throws the same error and the outcomes so far are lost.  The file is the
    one the earlier references left, unless the error is what the
    validation threw instead of returning a promise: then the reference
    that threw has written the file too. *)
Theorem runLoop_abort_keeps_writes pre s rest u w rs w1 e w2 :
  runLoop pre w = Ok rs w1 ->
  lookup s = Some u ->
  update u w1 = Throw e w2 ->
  runLoop (pre ++ s :: rest)%list w = Throw e w2
  /\ (file w2 = file w1
      \/ (dryRun this = false /\ exists w0, test this w0 = Throws e)).
Proof.
  intros Hpre Hl Hu. split.
  - rewrite runLoop_app, Hpre, (runLoop_cons s rest u w1 Hl), Hu. reflexivity.
  - pose proof (update_quiet u w1) as Hq.
    rewrite Hu in Hq. destruct Hq as [Hq|Hq].
    + left. exact (proj1 Hq).
    + right. exact Hq.
Qed.

(** X14. The update that is undone.  On the way of X8, but with a
    validation that always rejects: [update] reports the target with
    success false, and the file is the one before whenever the new URL cuts
    the written text into the pieces into which the URL of the reference cut
    the text before. *)
Theorem update_rolls_back u w versions u' tok sv flt v :
  reg_all (registry u) (url u) = Listed versions ->
  relocate u (version u) = ret (u', tok) ->
  Semver_new (version u') = Some sv ->
  fragment (url u') (version u') = Returns flt ->
  choose flt (candidates (version u) versions) = Target (Some v) ->
  strictEq (version u') (reattach tok (Some v)) && isNull tok = false ->
  dryRun this = false ->
  (forall w', test this w' = Rejects) ->
  Js.split
    (Js.join (Js.split (file w) (url u)) (at_url u' (reattach tok (Some v))))
    (at_url u' (reattach tok (Some v)))
    = Js.split (file w) (url u) ->
  exists w',
    update u w =
      Ok (mkResult (url u) (version u)
            (Some (Js.toStr (reattach tok (Some v)) ++
                   yellow match tok with None => "" | Some t => "#" ++ t end))
            (Some false)) w'
    /\ file w' = file w.
Proof.
  intros Hall Hrel Hsv Hfrag Hch Hs Hd Hrej Hsplit.
  rewrite (update_fetched u w versions u' tok Hall Hrel).
  unfold resolve. rewrite Hsv, Hfrag, Hch. cbv beta iota zeta. rewrite Hs.
  cbv beta delta [finish]. rewrite Hd.
  cbv beta iota zeta delta
    [negb bind log maybeReplace replace content writeFile runTest ret].
  rewrite Hrej. eexists. split; [reflexivity|].
  cbn [file emit afterFetch]. rewrite Hsplit. apply join_split_id.
Qed.

(** With [dryRun] or a validation that always resolves, the last step of
    [update] reports success. *)
Lemma finish_passes u iUrl iVersion tok nv w :
  dryRun this = true \/ (forall w', test this w' = Resolves) ->
  exists w',
    finish u iUrl iVersion tok nv w =
      Ok (mkResult iUrl iVersion
            (Some (Js.toStr nv ++
                   yellow match tok with None => "" | Some t => "#" ++ t end))
            (Some true)) w'.
Proof.
  intros [Hd|Hres].
  - exists w. apply finish_dryRun. exact Hd.
  - cbv beta delta [finish]. destruct (dryRun this).
    + exists w. reflexivity.
    + cbv beta iota zeta delta
        [negb bind log maybeReplace replace content writeFile runTest ret].
      rewrite Hres. eexists. reflexivity.
Qed.

(** *** What the outcomes depend on *)

(** What an outcome reports, apart from the verdict of the validation. *)
Definition report (r : UddResult) : string * string * option string :=
  (initUrl r, initVersion r, message r).

(** Two results agree under [f]: both return, with the same value under
    [f]; or both throw; or one of them throws what the validation threw. *)
Definition agree {A B} (f : A -> B) (x y : Result A) : Prop :=
  match x, y with
  | Ok a _, Ok b _ => f a = f b
  | Throw _ _, Throw _ _ => True
  | Ok _ _, Throw e _ | Throw e _, Ok _ _ => exists w0, test this w0 = Throws e
  end.

Lemma resolve_agree u iUrl iVersion tok versions w1 w2 :
  agree report (resolve u iUrl iVersion tok versions w1)
    (resolve u iUrl iVersion tok versions w2).
Proof.
  unfold resolve. destruct (Semver_new (version u)); [|reflexivity].
  destruct (fragment (url u) (version u)) as [flt|e].
  2:{ destruct (Js.instanceofSyntaxError e); [reflexivity|exact I]. }
  destruct (choose flt (candidates iVersion versions)) as [|nv];
    [reflexivity|].
  cbv zeta.
  destruct (strictEq (version u) (reattach tok nv) && isNull tok);
    [reflexivity|].
  destruct (finish_outcome u iUrl iVersion tok (reattach tok nv) w1)
    as [(f1 & w1' & ->)|(e1 & x1 & w1' & _ & Ht1 & -> & _)];
    destruct (finish_outcome u iUrl iVersion tok (reattach tok nv) w2)
      as [(f2 & w2' & ->)|(e2 & x2 & w2' & _ & Ht2 & -> & _)]; simpl.
  - reflexivity.
  - exists x2. exact Ht2.
  - exists x1. exact Ht1.
  - exact I.
Qed.

Lemma update_agree u w1 w2 : agree report (update u w1) (update u w2).
Proof.
  unfold update, bind, all, log, relocate.
  destruct (reg_all (registry u) (url u)); [|exact I].
  destruct (version u) as [|c rest]; [exact I|].
  destruct (isModifier c && negb (Js.includes (url u) "#"));
    unfold ret; cbv beta iota; apply resolve_agree.
Qed.

Lemma runLoop_agree urls :
  forall w1 w2, agree (map report) (runLoop urls w1) (runLoop urls w2).
Proof.
  induction urls as [|s rest IH]; intros w1 w2; [reflexivity|].
  simpl runLoop. destruct (lookup s) as [v|]; [|apply IH].
  unfold bind. pose proof (update_agree v w1 w2) as Hu.
  destruct (update v w1) as [r1 w1'|e1 w1'];
    destruct (update v w2) as [r2 w2'|e2 w2']; simpl in Hu.
  - specialize (IH w1' w2').
    destruct (runLoop rest w1') as [a1 x1|a1 x1];
      destruct (runLoop rest w2') as [a2 x2|a2 x2]; simpl in IH; simpl.
    + rewrite Hu, IH. reflexivity.
    + exact IH.
    + exact IH.
    + exact I.
  - destruct (runLoop rest w1'); simpl; [exact Hu|exact I].
  - destruct (runLoop rest w2'); simpl; [exact Hu|exact I].
  - exact I.
Qed.

(** X16. The file is written, never consulted.  Two calls of [update] on a
    reference, in whatever worlds, both return and report the same URL,
    version and message, or both throw, or one of them throws what the
    validation threw instead of returning a promise; so do two calls of
    [run] on files in which the scan finds the same URLs.  The text of the
    file and what happened before reach the outcomes through the validation
    only. *)
Theorem outcomes_ignore_file :
  (forall u w1 w2,
      match update u w1, update u w2 with
      | Ok r1 _, Ok r2 _ => report r1 = report r2
      | Throw _ _, Throw _ _ => True
      | Ok _ _, Throw e _ | Throw e _, Ok _ _ =>
          exists w0, test this w0 = Throws e
      end)
  /\ (forall w1 w2,
        importUrls (file w1) = importUrls (file w2) ->
        match run w1, run w2 with
        | Ok rs1 _, Ok rs2 _ => map report rs1 = map report rs2
        | Throw _ _, Throw _ _ => True
        | Ok _ _, Throw e _ | Throw e _, Ok _ _ =>
            exists w0, test this w0 = Throws e
        end).
Proof.
  split; [exact update_agree|].
  intros w1 w2 Hscan. unfold run, bind, content. rewrite Hscan.
  apply (runLoop_agree (importUrls (file w2))).
Qed.

End Engine.

(** ** The constructor of [Udd] *)

(** The options as they are passed: every field may be missing. *)
Record OptionsArg : Type := mkOptionsArg {
  given_dryRun : option bool;
  given_quiet : option bool;
  given_test : option (World -> TestOutcome)
}.

(** The truth of a flag that may be missing. *)
Definition truthy (b : option bool) : bool :=
  match b with
  | Some true => true
  | _ => false
  end.

(** [new Udd(filename, options)]: the validation is [options.test], or one
    that resolves when there is none; [dryRun] and [quiet] are read for
    their truth. *)
Definition Udd_new (options : OptionsArg) : UddOptions :=
  mkOptions (truthy (given_dryRun options)) (truthy (given_quiet options))
    match given_test options with
    | Some t => t
    | None => fun _ => Resolves
    end.

(** X12. Without a [test] option nothing is ever undone: the last step of
    [update] reports success, and the file keeps the new URL for the old
    one, or is left as it was under [dryRun]. *)
Theorem default_test_never_undoes (yellow : string -> string)
    (options : OptionsArg) (u : RegistryUrl) (iUrl iVersion : string)
    (tok nv : option string) (w : World) :
  given_test options = None ->
  exists w',
    finish yellow (Udd_new options) u iUrl iVersion tok nv w =
      Ok (mkResult iUrl iVersion
            (Some (Js.toStr nv ++
                   yellow match tok with None => "" | Some t => "#" ++ t end))
            (Some true)) w'
    /\ file w' =
         if truthy (given_dryRun options) then file w
         else Js.join (Js.split (file w) iUrl) (at_url u nv).
Proof.
  intros Ht. unfold Udd_new. rewrite Ht.
  cbv beta delta [finish]. simpl dryRun.
  destruct (truthy (given_dryRun options)).
  - exists w. split; reflexivity.
  - eexists. split; reflexivity.
Qed.

(** ** A dry run as a preview *)

Section Preview.

Variable Semver : Type.
Variable Semver_new : string -> option Semver.
Variable semver : string -> option Semver.
Variable sv_version : Semver -> string.
Variable fragment : string -> string -> Fragment Semver.
Variable Prerelease : Type.
Variable getPrereleaseVersion : string -> option Prerelease.
Variable yellow : string -> string.
Variable importUrls : string -> list string.
Variable lookup : string -> option RegistryUrl.

(** Two instances over the same file: a dry run, and a run whose validation
    always resolves. *)
Variable dry real : UddOptions.
Hypothesis dry_is_dry : dryRun dry = true.
Hypothesis real_passes : forall w, test real w = Resolves.

Lemma resolve_preview u iUrl iVersion tok versions w1 w2 :
  valueOf (resolve Semver_new semver sv_version fragment getPrereleaseVersion
             yellow dry u iUrl iVersion tok versions w1)
  = valueOf (resolve Semver_new semver sv_version fragment
               getPrereleaseVersion yellow real u iUrl iVersion tok versions
               w2).
Proof.
  unfold resolve. destruct (Semver_new (version u)); [|reflexivity].
  destruct (fragment (url u) (version u)) as [flt|e].
  2:{ destruct (Js.instanceofSyntaxError e); reflexivity. }
  destruct (choose semver sv_version flt
              (candidates getPrereleaseVersion iVersion versions)) as [|nv];
    [reflexivity|].
  cbv zeta.
  destruct (strictEq (version u) (reattach tok nv) && isNull tok);
    [reflexivity|].
  destruct (finish_passes yellow dry u iUrl iVersion tok (reattach tok nv) w1
              (or_introl dry_is_dry)) as [w1' ->].
  destruct (finish_passes yellow real u iUrl iVersion tok (reattach tok nv) w2
              (or_intror real_passes)) as [w2' ->].
  reflexivity.
Qed.

Lemma update_preview u w1 w2 :
  valueOf (update Semver_new semver sv_version fragment getPrereleaseVersion
             yellow dry u w1)
  = valueOf (update Semver_new semver sv_version fragment
               getPrereleaseVersion yellow real u w2).
Proof.
  unfold update, bind, all, log, relocate.
  destruct (reg_all (registry u) (url u)); [|reflexivity].
  destruct (version u) as [|c rest]; [reflexivity|].
  destruct (isModifier c && negb (Js.includes (url u) "#"));
    unfold ret; cbv beta iota; apply resolve_preview.
Qed.

Lemma runLoop_preview urls :
  forall w1 w2,
    valueOf (runLoop Semver_new semver sv_version fragment
               getPrereleaseVersion yellow lookup dry urls w1)
    = valueOf (runLoop Semver_new semver sv_version fragment
                 getPrereleaseVersion yellow lookup real urls w2).
Proof.
  induction urls as [|s rest IH]; intros w1 w2; [reflexivity|].
  simpl. destruct (lookup s) as [v|]; [|apply IH].
  unfold bind. pose proof (update_preview v w1 w2) as Hu.
  destruct (update Semver_new semver sv_version fragment getPrereleaseVersion
              yellow dry v w1) as [r1 w1'|e1 w1'];
    destruct (update Semver_new semver sv_version fragment
                getPrereleaseVersion yellow real v w2) as [r2 w2'|e2 w2'];
    simpl in Hu; try discriminate Hu; [|reflexivity].
  injection Hu as ->. specialize (IH w1' w2').
  destruct (runLoop Semver_new semver sv_version fragment
              getPrereleaseVersion yellow lookup dry rest w1') as [a1 x1|a1 x1];
    destruct (runLoop Semver_new semver sv_version fragment
                getPrereleaseVersion yellow lookup real rest w2')
      as [a2 x2|a2 x2];
    simpl in IH; try discriminate IH; [|reflexivity].
  injection IH as ->. reflexivity.
Qed.

(** X15. A dry run previews the run.  Over the same file, [run] with
    [dryRun] returns the outcomes that [run] with a validation that always
    resolves returns, and returns none when that one throws: the outcomes do
    not depend on what is written. *)
Theorem dry_run_previews w :
  valueOf (run Semver_new semver sv_version fragment getPrereleaseVersion
             yellow importUrls lookup dry w)
  = valueOf (run Semver_new semver sv_version fragment getPrereleaseVersion
               yellow importUrls lookup real w).
Proof. unfold run, bind, content. apply runLoop_preview. Qed.

End Preview.

(** ** The engine at the instance *)

Abbreviation updateAt colours this :=
  (update Model.Semver_new Model.semver Model.sv_version Model.fragment
     Model.getPrereleaseVersion (Model.yellow colours) this).

Abbreviation runAt colours listing this :=
  (run Model.Semver_new Model.semver Model.sv_version Model.fragment
     Model.getPrereleaseVersion (Model.yellow colours) Model.importUrls
     (Model.lookup listing) this).

(** [split] and [join] on small inputs, as the language defines them. *)
Example split_join_examples :
  Js.split "a,b,,c" "," = ["a"; "b"; ""; "c"]
  /\ Js.split "aaa" "aa" = [""; "a"]
  /\ Js.split "abc" "" = ["a"; "b"; "c"]
  /\ Js.split "" "," = [""]
  /\ Js.split "" "" = []
  /\ Js.split "abc" "abc" = [""; ""]
  /\ Js.join (Js.split "x.ab.ab.y" "ab") "c" = "x.c.c.y".
Proof. repeat split; reflexivity. Qed.

(** The constraints of the instance on the cases that the specification
    lists (section 8). *)
Example model_constraints :
  map (fun o => option_map (Model.caret (Model.mkSemver "1.2.3" 1 2 3 [] None))
                  (Model.semver o))
    ["1.2.4"; "1.9.9"; "2.0.0"; "1.2.2"]
  = [Some true; Some true; Some false; Some false]
  /\ map (fun o => option_map
                     (Model.caret (Model.mkSemver "0.2.3" 0 2 3 [] None))
                     (Model.semver o))
       ["0.2.3"; "0.2.7"; "0.2.2"; "0.3.0"]
     = [Some true; Some true; Some false; Some false]
  /\ map (fun o => option_map
                     (Model.tilde (Model.mkSemver "1.2.3" 1 2 3 [] None))
                     (Model.semver o))
       ["1.2.9"; "1.3.0"]
     = [Some true; Some false]
  /\ map Model.getPrereleaseVersion ["1.0.0"; "1.5.0-beta.1"; "main"]
     = [None; Some ["beta"; "1"]; None]
  /\ map (fun v => isNull (Model.Semver_new v))
       ["1.2.3"; "1.2.3-rc.1+build.5"; "main"; "^1.0.0"; "1.2"; ""]
     = [false; false; true; true; true; true].
Proof. repeat split; reflexivity. Qed.

(** Scenario A: no constraint, a validation that resolves. *)
Example scenario_A :
  runAt false (Inputs.lists ["1.2.0"; "1.1.0"; "1.0.0"]) Inputs.accepting
    (Inputs.importing [Inputs.foo "1.0.0"])
  = Ok [mkResult (Inputs.foo "1.0.0") "1.0.0" (Some "1.2.0") (Some true)]
       (worldOf
          (runAt false (Inputs.lists ["1.2.0"; "1.1.0"; "1.0.0"])
             Inputs.accepting (Inputs.importing [Inputs.foo "1.0.0"])))
  /\ file (worldOf
             (runAt false (Inputs.lists ["1.2.0"; "1.1.0"; "1.0.0"])
                Inputs.accepting (Inputs.importing [Inputs.foo "1.0.0"])))
     = "import 'https://deno.land/x/foo@1.2.0/mod.ts';".
Proof. split; reflexivity. Qed.

(** C1, at a file that already holds the new URL.  The file imports [foo]
    at 1.0.0 and at 1.2.0, the provider lists 1.2.0 first and the
    validation always rejects.  The write turns both imports into 1.2.0 and
    its undoing turns both into 1.0.0: after [run] the file is not the one
    before [run]. *)
Theorem rollback_rewrites_other_import :
  file (Inputs.importing [Inputs.foo "1.0.0"; Inputs.foo "1.2.0"])
    = "import 'https://deno.land/x/foo@1.0.0/mod.ts'; import 'https://deno.land/x/foo@1.2.0/mod.ts';"
  /\ valueOf
       (runAt false (Inputs.lists ["1.2.0"; "1.0.0"]) Inputs.rejecting
          (Inputs.importing [Inputs.foo "1.0.0"; Inputs.foo "1.2.0"]))
     = Some [mkResult (Inputs.foo "1.0.0") "1.0.0" (Some "1.2.0") (Some false);
             mkResult (Inputs.foo "1.2.0") "1.2.0" None None]
  /\ file (worldOf
             (runAt false (Inputs.lists ["1.2.0"; "1.0.0"]) Inputs.rejecting
                (Inputs.importing [Inputs.foo "1.0.0"; Inputs.foo "1.2.0"])))
     = "import 'https://deno.land/x/foo@1.0.0/mod.ts'; import 'https://deno.land/x/foo@1.0.0/mod.ts';"
  /\ file (worldOf
             (runAt false (Inputs.lists ["1.2.0"; "1.0.0"]) Inputs.rejecting
                (Inputs.importing [Inputs.foo "1.0.0"; Inputs.foo "1.2.0"])))
     <> file (Inputs.importing [Inputs.foo "1.0.0"; Inputs.foo "1.2.0"]).
Proof.
  split; [reflexivity|]. split; [reflexivity|]. split; [reflexivity|].
  vm_compute. discriminate.
Qed.

(** Scenario B with the message that C2 gives: the message is not the
    modifier and the version alone, it ends with the fragment, whether
    colours are enabled or not. *)
Lemma message_carries_fragment :
  option_map message
    (valueOf
       (updateAt false Inputs.accepting
          (Inputs.ref (Inputs.lists ["1.4.2"; "2.0.0"; "1.0.0"])
             (Inputs.foo "^1.0.0"))
          (Inputs.importing [Inputs.foo "^1.0.0"])))
  = Some (Some "^1.4.2#^")
  /\ option_map message
       (valueOf
          (updateAt true Inputs.accepting
             (Inputs.ref (Inputs.lists ["1.4.2"; "2.0.0"; "1.0.0"])
                (Inputs.foo "^1.0.0"))
             (Inputs.importing [Inputs.foo "^1.0.0"])))
     = Some (Some ("^1.4.2" ++ Model.esc ++ "[33m#^" ++ Model.esc ++ "[39m"))
  /\ option_map message
       (valueOf
          (updateAt false Inputs.accepting
             (Inputs.ref (Inputs.lists ["1.4.2"; "2.0.0"; "1.0.0"])
                (Inputs.foo "^1.0.0"))
             (Inputs.importing [Inputs.foo "^1.0.0"])))
     <> Some (Some "^1.4.2")
  /\ option_map message
       (valueOf
          (updateAt true Inputs.accepting
             (Inputs.ref (Inputs.lists ["1.4.2"; "2.0.0"; "1.0.0"])
                (Inputs.foo "^1.0.0"))
             (Inputs.importing [Inputs.foo "^1.0.0"])))
     <> Some (Some "^1.4.2").
Proof.
  split; [reflexivity|]. split; [reflexivity|].
  split; vm_compute; discriminate.
Qed.

(** The amended C2 at scenario B. *)
Lemma modifier_relocated_message_witness :
  exists failed w',
    updateAt false Inputs.accepting
      (Inputs.ref (Inputs.lists ["1.4.2"; "2.0.0"; "1.0.0"])
         (Inputs.foo "^1.0.0"))
      (Inputs.importing [Inputs.foo "^1.0.0"])
    = Ok (mkResult (Inputs.foo "^1.0.0") "^1.0.0"
            (Some ("^1.4.2" ++ Model.yellow false "#^"))
            (Some (negb failed))) w'.
Proof.
  destruct (proj2 (proj2
    (modifier_relocated_message Model.Semver Model.Semver_new Model.semver
       Model.sv_version Model.fragment (list string)
       Model.getPrereleaseVersion (Model.yellow false) Inputs.accepting
       (Inputs.ref (Inputs.lists ["1.4.2"; "2.0.0"; "1.0.0"])
          (Inputs.foo "^1.0.0"))
       (Inputs.importing [Inputs.foo "^1.0.0"])
       "^"%char "1.0.0" ["1.4.2"; "2.0.0"; "1.0.0"]
       (Model.mkSemver "1.0.0" 1 0 0 [] None)
       (Some (Model.caret (Model.mkSemver "1.0.0" 1 0 0 [] None)))
       (Some "1.4.2")
       eq_refl eq_refl eq_refl eq_refl eq_refl eq_refl eq_refl)))
    as [H|(e & w1 & w' & _ & Ht & _)].
  - exact H.
  - discriminate Ht.
Defined.

(** C3 as stated, at a stable version with the constraint [<2.0.0] and a
    provider that lists a prerelease first.  The first fetched version that
    parses and passes the constraint is 1.5.0-beta.1; the target of [update]
    is 1.4.2, the first candidate that does. *)
Lemma constraint_reads_candidates :
  Model.fragment (Inputs.foo "1.0.0" ++ "#<2.0.0") "1.0.0"
    = Returns (Some (Model.lt (Model.mkSemver "2.0.0" 2 0 0 [] None)))
  /\ hd_error
       (compatible Model.semver Model.sv_version
          (Model.lt (Model.mkSemver "2.0.0" 2 0 0 [] None))
          ["1.5.0-beta.1"; "1.4.2"; "1.0.0"])
     = Some "1.5.0-beta.1"
  /\ option_map message
       (valueOf
          (updateAt false Inputs.accepting
             (Inputs.ref (Inputs.lists ["1.5.0-beta.1"; "1.4.2"; "1.0.0"])
                (Inputs.foo "1.0.0" ++ "#<2.0.0"))
             (Inputs.importing [Inputs.foo "1.0.0" ++ "#<2.0.0"])))
     = Some (Some "1.4.2")
  /\ file
       (worldOf
          (updateAt false Inputs.accepting
             (Inputs.ref (Inputs.lists ["1.5.0-beta.1"; "1.4.2"; "1.0.0"])
                (Inputs.foo "1.0.0" ++ "#<2.0.0"))
             (Inputs.importing [Inputs.foo "1.0.0" ++ "#<2.0.0"])))
     = "import 'https://deno.land/x/foo@1.4.2/mod.ts#<2.0.0';".
Proof. repeat split; reflexivity. Qed.

(** The amended C3 at the same input: the target is 1.4.2. *)
Lemma constrained_target_witness :
  choose Model.semver Model.sv_version
    (Some (Model.lt (Model.mkSemver "2.0.0" 2 0 0 [] None)))
    (candidates Model.getPrereleaseVersion "1.0.0"
       ["1.5.0-beta.1"; "1.4.2"; "1.0.0"])
  = Target (Some "1.4.2").
Proof.
  refine (proj1 (proj2
    (constrained_target Model.Semver Model.Semver_new Model.semver
       Model.sv_version Model.fragment (list string)
       Model.getPrereleaseVersion (Model.yellow false) Inputs.accepting
       (Inputs.ref (Inputs.lists ["1.5.0-beta.1"; "1.4.2"; "1.0.0"])
          (Inputs.foo "1.0.0" ++ "#<2.0.0"))
       (Inputs.importing [Inputs.foo "1.0.0" ++ "#<2.0.0"])
       ["1.5.0-beta.1"; "1.4.2"; "1.0.0"]
       (Inputs.ref (Inputs.lists ["1.5.0-beta.1"; "1.4.2"; "1.0.0"])
          (Inputs.foo "1.0.0" ++ "#<2.0.0"))
       None
       (Model.mkSemver "1.0.0" 1 0 0 [] None)
       (Model.lt (Model.mkSemver "2.0.0" 2 0 0 [] None))
       _ _ _ _))); reflexivity.
Defined.


(** The two sides of the policy, run: from 1.0.0 the target is 1.2.0, from
    1.0.0-rc.1 it is 2.0.0-rc.1. *)
Example prerelease_policy_runs :
  option_map message
    (valueOf
       (updateAt false Inputs.accepting
          (Inputs.ref (Inputs.lists ["2.0.0-rc.1"; "1.2.0"])
             (Inputs.foo "1.0.0"))
          (Inputs.importing [Inputs.foo "1.0.0"])))
  = Some (Some "1.2.0")
  /\ option_map message
       (valueOf
          (updateAt false Inputs.accepting
             (Inputs.ref (Inputs.lists ["2.0.0-rc.1"; "1.2.0"])
                (Inputs.foo "1.0.0-rc.1"))
             (Inputs.importing [Inputs.foo "1.0.0-rc.1"])))
     = Some (Some "2.0.0-rc.1").
Proof. split; reflexivity. Qed.



(** C6 as stated, at two references whose version is no Semver.  For the
    branch name [main] at a provider whose fetch fails, [update] throws the
    error of the fetch, which comes before the Semver test; for the empty
    version it throws the TypeError of C10.  Neither returns the outcome of
    a skipped reference. *)
Lemma non_semver_not_always_skipped :
  Model.Semver_new "main" = None
  /\ updateAt false Inputs.accepting
       (Inputs.ref (Inputs.listsFooOnly ["1.2.0"; "1.0.0"]) (Inputs.bar "main"))
       (Inputs.importing [Inputs.bar "main"])
     = Throw (Js.OtherError "network error")
         (afterFetch
            (Inputs.ref (Inputs.listsFooOnly ["1.2.0"; "1.0.0"])
               (Inputs.bar "main"))
            (Inputs.importing [Inputs.bar "main"]))
  /\ Model.Semver_new "" = None
  /\ valueOf
       (updateAt false Inputs.accepting
          (Inputs.ref (Inputs.lists ["1.2.0"; "1.0.0"]) (Inputs.foo ""))
          (Inputs.importing [Inputs.foo ""]))
     = None.
Proof. repeat split; reflexivity. Qed.

(** The amended C6 at scenario C: the version [main]. *)
Lemma non_semver_skipped_witness :
  updateAt false Inputs.accepting
    (Inputs.ref (Inputs.lists ["1.2.0"; "1.0.0"]) (Inputs.foo "main"))
    (Inputs.importing [Inputs.foo "main"])
  = Ok (mkResult (Inputs.foo "main") "main" None None)
       (emit (EvLog ("Skip updating: " ++ Inputs.foo "main"))
          (afterFetch
             (Inputs.ref (Inputs.lists ["1.2.0"; "1.0.0"]) (Inputs.foo "main"))
             (Inputs.importing [Inputs.foo "main"]))).
Proof.
  refine (proj1
    (non_semver_skipped Model.Semver Model.Semver_new Model.semver
       Model.sv_version Model.fragment (list string)
       Model.getPrereleaseVersion (Model.yellow false) Inputs.accepting
       (Inputs.ref (Inputs.lists ["1.2.0"; "1.0.0"]) (Inputs.foo "main"))
       (Inputs.importing [Inputs.foo "main"])
       ["1.2.0"; "1.0.0"]
       (Inputs.ref (Inputs.lists ["1.2.0"; "1.0.0"]) (Inputs.foo "main"))
       None
       _ _ _)); reflexivity.
Defined.

(** C7, at a validation that throws instead of returning a promise (a
    callback that is no [async] function).  The file imports [foo] and
    [bar] at 1.0.0 and the provider lists 1.2.0 first.  [update] writes the
    new URL of [foo], the validation throws, and the error leaves
    [maybeReplace], [update] and [run]: no outcome is recorded for the
    failed validation, the reference after it is not processed, and the
    file keeps the write. *)
Theorem validation_throw_aborts_run :
  file (Inputs.importing [Inputs.foo "1.0.0"; Inputs.bar "1.0.0"])
    = "import 'https://deno.land/x/foo@1.0.0/mod.ts'; import 'https://deno.land/x/bar@1.0.0/mod.ts';"
  /\ runAt false (Inputs.lists ["1.2.0"; "1.0.0"]) Inputs.throwing
       (Inputs.importing [Inputs.foo "1.0.0"; Inputs.bar "1.0.0"])
     = Throw (Js.OtherError "validation threw")
         (worldOf
            (runAt false (Inputs.lists ["1.2.0"; "1.0.0"]) Inputs.throwing
               (Inputs.importing [Inputs.foo "1.0.0"; Inputs.bar "1.0.0"])))
  /\ valueOf
       (runAt false (Inputs.lists ["1.2.0"; "1.0.0"]) Inputs.throwing
          (Inputs.importing [Inputs.foo "1.0.0"; Inputs.bar "1.0.0"]))
     = None
  /\ file
       (worldOf
          (runAt false (Inputs.lists ["1.2.0"; "1.0.0"]) Inputs.throwing
             (Inputs.importing [Inputs.foo "1.0.0"; Inputs.bar "1.0.0"])))
     = "import 'https://deno.land/x/foo@1.2.0/mod.ts'; import 'https://deno.land/x/bar@1.0.0/mod.ts';"
  /\ existsb
       (fun e =>
          match e with
          | EvFetch u => String.eqb u (Inputs.bar "1.0.0")
          | _ => false
          end)
       (trace
          (worldOf
             (runAt false (Inputs.lists ["1.2.0"; "1.0.0"]) Inputs.throwing
                (Inputs.importing [Inputs.foo "1.0.0"; Inputs.bar "1.0.0"]))))
     = false.
Proof. repeat split; reflexivity. Qed.


(** C8 at a dry run over a file with an old import. *)
Lemma dry_run_never_writes_witness :
  file (worldOf
          (runAt false (Inputs.lists ["1.2.0"; "1.0.0"]) Inputs.dry
             (Inputs.importing [Inputs.foo "1.0.0"])))
  = file (Inputs.importing [Inputs.foo "1.0.0"]).
Proof.
  exact (proj1
    (proj1
       (dry_run_never_writes Model.Semver Model.Semver_new Model.semver
          Model.sv_version Model.fragment (list string)
          Model.getPrereleaseVersion (Model.yellow false) Model.importUrls
          (Model.lookup (Inputs.lists ["1.2.0"; "1.0.0"])) Inputs.dry
          eq_refl)
       (Inputs.importing [Inputs.foo "1.0.0"]))).
Defined.

(** C9 at a stable version whose provider lists one prerelease only. *)
Lemma empty_candidates_undefined_target_witness :
  choose Model.semver Model.sv_version None
    (candidates Model.getPrereleaseVersion "1.0.0" ["1.5.0-beta.1"])
  = Target None
  /\ updateAt false Inputs.accepting
       (Inputs.ref (Inputs.lists ["1.5.0-beta.1"]) (Inputs.foo "1.0.0"))
       (Inputs.importing [Inputs.foo "1.0.0"])
     = finish (Model.yellow false) Inputs.accepting
         (Inputs.ref (Inputs.lists ["1.5.0-beta.1"]) (Inputs.foo "1.0.0"))
         (Inputs.foo "1.0.0") "1.0.0" None None
         (afterFetch
            (Inputs.ref (Inputs.lists ["1.5.0-beta.1"]) (Inputs.foo "1.0.0"))
            (Inputs.importing [Inputs.foo "1.0.0"])).
Proof.
  refine ((fun H => conj (proj1 H) (proj1 (proj2 H)))
    (empty_candidates_undefined_target Model.Semver Model.Semver_new
       Model.semver Model.sv_version Model.fragment (list string)
       Model.getPrereleaseVersion (Model.yellow false) Inputs.accepting
       (Inputs.ref (Inputs.lists ["1.5.0-beta.1"]) (Inputs.foo "1.0.0"))
       (Inputs.importing [Inputs.foo "1.0.0"])
       ["1.5.0-beta.1"]
       (Inputs.ref (Inputs.lists ["1.5.0-beta.1"]) (Inputs.foo "1.0.0"))
       None
       (Model.mkSemver "1.0.0" 1 0 0 [] None)
       _ _ _ _ _ _)); reflexivity.
Defined.

(** What [update] does there: the file gets [undefined] for a version and
    the message is [undefined]. *)
Example undefined_target_written :
  updateAt false Inputs.accepting
    (Inputs.ref (Inputs.lists ["1.5.0-beta.1"]) (Inputs.foo "1.0.0"))
    (Inputs.importing [Inputs.foo "1.0.0"])
  = Ok (mkResult (Inputs.foo "1.0.0") "1.0.0" (Some "undefined") (Some true))
       (worldOf
          (updateAt false Inputs.accepting
             (Inputs.ref (Inputs.lists ["1.5.0-beta.1"]) (Inputs.foo "1.0.0"))
             (Inputs.importing [Inputs.foo "1.0.0"])))
  /\ file (worldOf
             (updateAt false Inputs.accepting
                (Inputs.ref (Inputs.lists ["1.5.0-beta.1"])
                   (Inputs.foo "1.0.0"))
                (Inputs.importing [Inputs.foo "1.0.0"])))
     = "import 'https://deno.land/x/foo@undefined/mod.ts';".
Proof. split; reflexivity. Qed.

(** C10 at a URL with nothing between [@] and [/]. *)
Lemma empty_version_throws_witness :
  updateAt false Inputs.accepting
    (Inputs.ref (Inputs.lists ["1.2.0"; "1.0.0"]) (Inputs.foo ""))
    (Inputs.importing [Inputs.foo ""])
  = Throw (Js.TypeError "Cannot read properties of undefined (reading 'match')")
      (afterFetch
         (Inputs.ref (Inputs.lists ["1.2.0"; "1.0.0"]) (Inputs.foo ""))
         (Inputs.importing [Inputs.foo ""])).
Proof.
  exact (proj2
    (empty_version_throws Model.Semver Model.Semver_new Model.semver
       Model.sv_version Model.fragment (list string)
       Model.getPrereleaseVersion (Model.yellow false) Inputs.accepting
       (Inputs.ref (Inputs.lists ["1.2.0"; "1.0.0"]) (Inputs.foo ""))
       (Inputs.importing [Inputs.foo ""])
       eq_refl)
    ["1.2.0"; "1.0.0"] eq_refl).
Defined.

(** The write and its undoing at a file with one import: here the undoing
    gives the file back. *)
Lemma maybeReplace_rejected_witness :
  exists w',
    maybeReplace Inputs.rejecting
      (Inputs.ref (Inputs.lists ["1.2.0"; "1.0.0"]) (Inputs.foo "1.0.0"))
      (Some "1.2.0") (Inputs.foo "1.0.0")
      (Inputs.importing [Inputs.foo "1.0.0"])
    = Ok true w'
    /\ file w' =
         Js.join
           (Js.split
              (Js.join
                 (Js.split (file (Inputs.importing [Inputs.foo "1.0.0"]))
                    (Inputs.foo "1.0.0"))
                 (at_url
                    (Inputs.ref (Inputs.lists ["1.2.0"; "1.0.0"])
                       (Inputs.foo "1.0.0"))
                    (Some "1.2.0")))
              (at_url
                 (Inputs.ref (Inputs.lists ["1.2.0"; "1.0.0"])
                    (Inputs.foo "1.0.0"))
                 (Some "1.2.0")))
           (Inputs.foo "1.0.0").
Proof.
  exact (maybeReplace_rejected Inputs.rejecting
           (Inputs.ref (Inputs.lists ["1.2.0"; "1.0.0"]) (Inputs.foo "1.0.0"))
           (Some "1.2.0") (Inputs.foo "1.0.0")
           (Inputs.importing [Inputs.foo "1.0.0"])
           (fun _ => eq_refl)).
Defined.

(** ** More of the engine, at the instance *)

(** X3 at a file that does not hold the URL. *)
Lemma replace_absent_witness :
  Js.join
    (Js.split (file (Inputs.importing [Inputs.foo "1.0.0"])) (Inputs.bar "1.0.0"))
    (Inputs.bar "2.0.0")
  = file (Inputs.importing [Inputs.foo "1.0.0"]).
Proof.
  exact (proj1
    (replace_absent (Inputs.bar "1.0.0") (Inputs.bar "2.0.0")
       (Inputs.importing [Inputs.foo "1.0.0"]) eq_refl)).
Defined.

(** X4 at a file with one import. *)
Lemma maybeReplace_restores_witness :
  exists w',
    maybeReplace Inputs.rejecting
      (Inputs.ref (Inputs.lists ["1.2.0"; "1.0.0"]) (Inputs.foo "1.0.0"))
      (Some "1.2.0") (Inputs.foo "1.0.0")
      (Inputs.importing [Inputs.foo "1.0.0"])
    = Ok true w'
    /\ file w' = file (Inputs.importing [Inputs.foo "1.0.0"]).
Proof.
  exact (maybeReplace_restores Inputs.rejecting
           (Inputs.ref (Inputs.lists ["1.2.0"; "1.0.0"]) (Inputs.foo "1.0.0"))
           (Some "1.2.0") (Inputs.foo "1.0.0")
           (Inputs.importing [Inputs.foo "1.0.0"])
           (fun _ => eq_refl) eq_refl).
Defined.

(** X5 at a relocated reference: the outcome has the URL with the modifier
    in the version, as the file had it. *)
Lemma update_outcome_shape_witness :
  initUrl
    (mkResult (Inputs.foo "^1.0.0") "^1.0.0" (Some "^1.4.2#^") (Some true))
  = url (Inputs.ref (Inputs.lists ["1.4.2"; "2.0.0"; "1.0.0"])
           (Inputs.foo "^1.0.0")).
Proof.
  exact (proj1
    (update_outcome_shape Model.Semver Model.Semver_new Model.semver
       Model.sv_version Model.fragment (list string)
       Model.getPrereleaseVersion (Model.yellow false) Inputs.accepting
       (Inputs.ref (Inputs.lists ["1.4.2"; "2.0.0"; "1.0.0"])
          (Inputs.foo "^1.0.0"))
       (Inputs.importing [Inputs.foo "^1.0.0"])
       (mkResult (Inputs.foo "^1.0.0") "^1.0.0" (Some "^1.4.2#^") (Some true))
       (worldOf
          (updateAt false Inputs.accepting
             (Inputs.ref (Inputs.lists ["1.4.2"; "2.0.0"; "1.0.0"])
                (Inputs.foo "^1.0.0"))
             (Inputs.importing [Inputs.foo "^1.0.0"])))
       eq_refl)).
Defined.

(** X6 at a file with two imports and a text in quotes that is no URL. *)
Lemma run_outcomes_follow_scan_witness :
  map initUrl
    [mkResult (Inputs.foo "1.0.0") "1.0.0" (Some "1.2.0") (Some true);
     mkResult (Inputs.bar "1.2.0") "1.2.0" None None]
  = map url
      (defined
         (map (Model.lookup (Inputs.lists ["1.2.0"; "1.0.0"]))
            (Model.importUrls
               (file (Inputs.importing
                        [Inputs.foo "1.0.0"; "https://example.com/plain.ts";
                         Inputs.bar "1.2.0"]))))).
Proof.
  exact (proj1
    (run_outcomes_follow_scan Model.Semver Model.Semver_new Model.semver
       Model.sv_version Model.fragment (list string)
       Model.getPrereleaseVersion (Model.yellow false) Model.importUrls
       (Model.lookup (Inputs.lists ["1.2.0"; "1.0.0"])) Inputs.accepting
       (Inputs.importing
          [Inputs.foo "1.0.0"; "https://example.com/plain.ts";
           Inputs.bar "1.2.0"])
       [mkResult (Inputs.foo "1.0.0") "1.0.0" (Some "1.2.0") (Some true);
        mkResult (Inputs.bar "1.2.0") "1.2.0" None None]
       (worldOf
          (runAt false (Inputs.lists ["1.2.0"; "1.0.0"]) Inputs.accepting
             (Inputs.importing
                [Inputs.foo "1.0.0"; "https://example.com/plain.ts";
                 Inputs.bar "1.2.0"])))
       eq_refl)).
Defined.


(** X9 at a reference that is at the first listed version. *)
Lemma update_latest_untouched_witness :
  updateAt false Inputs.accepting
    (Inputs.ref (Inputs.lists ["1.2.0"; "1.0.0"]) (Inputs.foo "1.2.0"))
    (Inputs.importing [Inputs.foo "1.2.0"])
  = Ok (mkResult (Inputs.foo "1.2.0") "1.2.0" None None)
       (emit (EvLog ("Using latest: " ++ Inputs.foo "1.2.0"))
          (afterFetch
             (Inputs.ref (Inputs.lists ["1.2.0"; "1.0.0"]) (Inputs.foo "1.2.0"))
             (Inputs.importing [Inputs.foo "1.2.0"]))).
Proof.
  refine (proj1
    (update_latest_untouched Model.Semver Model.Semver_new Model.semver
       Model.sv_version Model.fragment (list string)
       Model.getPrereleaseVersion (Model.yellow false) Inputs.accepting
       (Inputs.ref (Inputs.lists ["1.2.0"; "1.0.0"]) (Inputs.foo "1.2.0"))
       (Inputs.importing [Inputs.foo "1.2.0"])
       ["1.2.0"; "1.0.0"]
       (Model.mkSemver "1.2.0" 1 2 0 [] None) None
       _ _ _ _ _)); reflexivity.
Defined.

(** X10 at a reference that stands at the first candidate of 1.0.0 in a
    listing that starts with a name that is no Semver. *)
Lemma update_settles_witness :
  updateAt false Inputs.accepting
    (Inputs.ref (Inputs.lists ["nightly"; "1.0.0"]) (Inputs.foo "nightly"))
    (Inputs.importing [Inputs.foo "nightly"])
  = Ok (mkResult (Inputs.foo "nightly") "nightly" None None)
       (emit (EvLog ("Skip updating: " ++ Inputs.foo "nightly"))
          (afterFetch
             (Inputs.ref (Inputs.lists ["nightly"; "1.0.0"])
                (Inputs.foo "nightly"))
             (Inputs.importing [Inputs.foo "nightly"]))).
Proof.
  refine (proj1
    (update_settles Model.Semver Model.Semver_new Model.semver
       Model.sv_version Model.fragment (list string)
       Model.getPrereleaseVersion (Model.yellow false) Inputs.accepting
       "1.0.0"
       (Inputs.ref (Inputs.lists ["nightly"; "1.0.0"]) (Inputs.foo "nightly"))
       (Inputs.importing [Inputs.foo "nightly"])
       ["nightly"; "1.0.0"]
       _ _ _ _)); reflexivity.
Defined.

(** X11 at the reference of scenario B. *)
Lemma relocate_once_witness :
  Js.includes
    (url (mkRegistryUrl "https://deno.land/x/foo@1.0.0/mod.ts#^"
            (Model.registryOf (Inputs.lists ["1.4.2"]))))
    "#"
  = true.
Proof.
  exact (proj1
    (relocate_once
       (Inputs.ref (Inputs.lists ["1.4.2"]) (Inputs.foo "^1.0.0")) "^1.0.0"
       (mkRegistryUrl "https://deno.land/x/foo@1.0.0/mod.ts#^"
          (Model.registryOf (Inputs.lists ["1.4.2"])))
       "^" eq_refl)).
Defined.

(** X12 at options without any field. *)
Lemma default_test_never_undoes_witness :
  exists w',
    finish (Model.yellow false) (Udd_new (mkOptionsArg None None None))
      (Inputs.ref (Inputs.lists ["1.2.0"; "1.0.0"]) (Inputs.foo "1.0.0"))
      (Inputs.foo "1.0.0") "1.0.0" None (Some "1.2.0")
      (Inputs.importing [Inputs.foo "1.0.0"])
    = Ok (mkResult (Inputs.foo "1.0.0") "1.0.0" (Some "1.2.0") (Some true)) w'
    /\ file w' = "import 'https://deno.land/x/foo@1.2.0/mod.ts';".
Proof.
  exact (default_test_never_undoes (Model.yellow false)
           (mkOptionsArg None None None)
           (Inputs.ref (Inputs.lists ["1.2.0"; "1.0.0"]) (Inputs.foo "1.0.0"))
           (Inputs.foo "1.0.0") "1.0.0" None (Some "1.2.0")
           (Inputs.importing [Inputs.foo "1.0.0"]) eq_refl).
Defined.

(** X13 at a file with two imports, the fetch of the second failing. *)
Lemma runLoop_abort_keeps_writes_witness :
  exists w2,
    runLoop Model.Semver_new Model.semver Model.sv_version Model.fragment
      Model.getPrereleaseVersion (Model.yellow false)
      (Model.lookup (Inputs.listsFooOnly ["1.2.0"; "1.0.0"])) Inputs.accepting
      [Inputs.foo "1.0.0"; Inputs.bar "1.0.0"]
      (Inputs.importing [Inputs.foo "1.0.0"; Inputs.bar "1.0.0"])
    = Throw (Js.OtherError "network error") w2.
Proof.
  eexists.
  eapply proj1.
  eapply
    (runLoop_abort_keeps_writes Model.Semver Model.Semver_new Model.semver
       Model.sv_version Model.fragment (list string)
       Model.getPrereleaseVersion (Model.yellow false)
       (Model.lookup (Inputs.listsFooOnly ["1.2.0"; "1.0.0"]))
       Inputs.accepting)
    with (pre := [Inputs.foo "1.0.0"]) (s := Inputs.bar "1.0.0") (rest := []);
    reflexivity.
Defined.

(** X14 at a file with one import. *)
Lemma update_rolls_back_witness :
  exists w',
    updateAt false Inputs.rejecting
      (Inputs.ref (Inputs.lists ["1.2.0"; "1.0.0"]) (Inputs.foo "1.0.0"))
      (Inputs.importing [Inputs.foo "1.0.0"])
    = Ok (mkResult (Inputs.foo "1.0.0") "1.0.0" (Some "1.2.0") (Some false)) w'
    /\ file w' = file (Inputs.importing [Inputs.foo "1.0.0"]).
Proof.
  refine
    (update_rolls_back Model.Semver Model.Semver_new Model.semver
       Model.sv_version Model.fragment (list string)
       Model.getPrereleaseVersion (Model.yellow false) Inputs.rejecting
       (Inputs.ref (Inputs.lists ["1.2.0"; "1.0.0"]) (Inputs.foo "1.0.0"))
       (Inputs.importing [Inputs.foo "1.0.0"])
       ["1.2.0"; "1.0.0"]
       (Inputs.ref (Inputs.lists ["1.2.0"; "1.0.0"]) (Inputs.foo "1.0.0"))
       None (Model.mkSemver "1.0.0" 1 0 0 [] None) None "1.2.0"
       _ _ _ _ _ _ _ _ _); intros; reflexivity.
Defined.

(** X15 at a file with two imports. *)
Lemma dry_run_previews_witness :
  valueOf
    (runAt false (Inputs.lists ["1.2.0"; "1.0.0"]) Inputs.dry
       (Inputs.importing [Inputs.foo "1.0.0"; Inputs.bar "1.2.0"]))
  = valueOf
      (runAt false (Inputs.lists ["1.2.0"; "1.0.0"]) Inputs.accepting
         (Inputs.importing [Inputs.foo "1.0.0"; Inputs.bar "1.2.0"])).
Proof.
  exact (dry_run_previews Model.Semver Model.Semver_new Model.semver
           Model.sv_version Model.fragment (list string)
           Model.getPrereleaseVersion (Model.yellow false) Model.importUrls
           (Model.lookup (Inputs.lists ["1.2.0"; "1.0.0"]))
           Inputs.dry Inputs.accepting eq_refl (fun _ => eq_refl)
           (Inputs.importing [Inputs.foo "1.0.0"; Inputs.bar "1.2.0"])).
Defined.

(** X16 at the same file in two worlds, one fresh and one with a history,
    and a validation that tells them apart: the verdicts differ, the
    reports agree. *)
Lemma outcomes_ignore_file_witness :
  map report
    [mkResult (Inputs.foo "1.0.0") "1.0.0" (Some "1.2.0") (Some true)]
  = map report
      [mkResult (Inputs.foo "1.0.0") "1.0.0" (Some "1.2.0") (Some false)].
Proof.
  exact (proj2
    (outcomes_ignore_file Model.Semver Model.Semver_new Model.semver
       Model.sv_version Model.fragment (list string)
       Model.getPrereleaseVersion (Model.yellow false) Model.importUrls
       (Model.lookup (Inputs.lists ["1.2.0"; "1.0.0"])) Inputs.moody)
    (Inputs.importing [Inputs.foo "1.0.0"])
    (emit (EvLog "earlier run") (Inputs.importing [Inputs.foo "1.0.0"]))
    eq_refl).
Defined.
